(** * CMMS_NEON: parts consumption and equipment history

    A shallow embedding of the transactional and arithmetic parts of
    - [cm_parts_integration.py] ([PartsConsumptionDialog] and the list of
      [CMPartsDetailsDialog]),
    - [equipment_history.py] ([EquipmentHistory.get_equipment_health_score],
      [EquipmentHistory.get_maintenance_trends] and the recommendation lines
      of [EquipmentHistoryViewer._display_health_score]),
    with the table layout of [mro_stock_module.py] ([init_mro_database]).
    The history lists and the timeline of [equipment_history.py] read
    columns and the [audit_log] table that the tables here do not have; they
    are left out.

    Conventions of the embedding.
    - SQL [REAL] columns and Python floats are exact rationals ([Q]); one
      numeric value has one representation only up to [==], so statements
      about quantities use [==], [<] and [<=] of [Q].
    - A psycopg2 connection is a pair of database states: what is committed
      and what the open transaction sees.  [commit] publishes the second,
      [rollback] discards it.  Every round trip to the server may fail; the
      [outage] field of a connection says after how many round trips it does.
    - Message boxes, [accept()] and the callback are recorded in a trace of
      events, in the order the code performs them. *)

From Stdlib Require Import ZArith QArith Qround Lqa String Ascii List.
From Stdlib Require Import DecimalString DecimalN Floats Uint63.
From stdpp Require Import gmap strings list sorting.
Import ListNotations.

Local Open Scope string_scope.
Local Open Scope list_scope.
Local Open Scope Z_scope.

(** ** Numbers *)

Module Num.

(** Python's [int(x)] on a float: truncation towards zero. *)
Definition int_of_Q (q : Q) : Z := Z.quot (Qnum q) (Z.pos (Qden q)).

(** Round half to even, to an integer. *)
Definition round_half_even (q : Q) : Z :=
  let f := Qfloor q in
  let r := (q - inject_Z f)%Q in
  match (r ?= 1 # 2)%Q with
  | Lt => f
  | Gt => f + 1
  | Eq => if Z.even f then f else f + 1
  end.

(** Python's [round(x, 1)]: the nearest multiple of one tenth, ties to even;
    the result is kept in lowest terms. *)
Definition round1 (q : Q) : Q := Qred (round_half_even (q * 10) # 10).

Definition Qmin (a b : Q) : Q := if Qle_bool a b then a else b.
Definition Qmax (a b : Q) : Q := if Qle_bool a b then b else a.

(** Python truthiness of a number: zero is false. *)
Definition truthy (q : Q) : bool := negb (Qeq_bool q 0).

Fixpoint Qsum (l : list Q) : Q :=
  match l with
  | [] => 0
  | x :: r => x + Qsum r
  end%Q.

End Num.

(** ** The stock tables ([init_mro_database]) *)

Definition Timestamp := Z.

(** A row of [mro_inventory], keyed by its [part_number] ([TEXT UNIQUE NOT
    NULL]).  [unit_price] may be [NULL]. *)
Record InventoryItem := {
  name : string;
  location : string;
  quantity_in_stock : Q;
  unit_price : option Q;
  status : string;
  last_updated : Timestamp }.

(** A row of [mro_stock_transactions]. *)
Record StockTransaction := {
  st_part_number : string;
  transaction_type : string;
  st_quantity : Q;
  st_technician_name : string;
  st_notes : string;
  transaction_date : Timestamp }.

(** A row of [cm_parts_used]. *)
Record PartsUsed := {
  pu_cm_number : string;
  pu_part_number : string;
  quantity_used : Q;
  total_cost : Q;
  recorded_date : Timestamp;
  recorded_by : string;
  pu_notes : string }.

(** ** Calendar dates, as Python's [datetime] computes them *)

Module Calendar.

Record date := { year : Z; month : Z; day : Z }.

Definition date_ltb (a b : date) : bool :=
  (year a <? year b)
  || ((year a =? year b)
      && ((month a <? month b) || ((month a =? month b) && (day a <? day b)))).

Definition date_leb (a b : date) : bool := negb (date_ltb b a).

Definition is_leap (y : Z) : bool :=
  (y mod 4 =? 0) && (negb (y mod 100 =? 0) || (y mod 400 =? 0)).

Definition days_before_year (y : Z) : Z :=
  let p := y - 1 in p * 365 + p / 4 - p / 100 + p / 400.

Definition DAYS_IN_MONTH (m : Z) : Z :=
  match m with
  | 1 => 31 | 2 => 28 | 3 => 31 | 4 => 30 | 5 => 31 | 6 => 30
  | 7 => 31 | 8 => 31 | 9 => 30 | 10 => 31 | 11 => 30 | 12 => 31
  | _ => 0
  end.

Definition DAYS_BEFORE_MONTH (m : Z) : Z :=
  match m with
  | 1 => 0 | 2 => 31 | 3 => 59 | 4 => 90 | 5 => 120 | 6 => 151
  | 7 => 181 | 8 => 212 | 9 => 243 | 10 => 273 | 11 => 304 | 12 => 334
  | _ => 0
  end.

Definition days_before_month (y m : Z) : Z :=
  DAYS_BEFORE_MONTH m + (if (2 <? m) && is_leap y then 1 else 0).

(** [date.toordinal]: 1 is 0001-01-01. *)
Definition ymd2ord (d : date) : Z :=
  days_before_year (year d) + days_before_month (year d) (month d) + day d.

(** [date.fromordinal]. *)
Definition ord2ymd (n : Z) : date :=
  let n := n - 1 in
  let n400 := n / 146097 in
  let n := n mod 146097 in
  let n100 := n / 36524 in
  let n := n mod 36524 in
  let n4 := n / 1461 in
  let n := n mod 1461 in
  let n1 := n / 365 in
  let n := n mod 365 in
  let y := n400 * 400 + 1 + n100 * 100 + n4 * 4 + n1 in
  if (n1 =? 4) || (n100 =? 4) then {| year := y - 1; month := 12; day := 31 |}
  else
    let leapyear := (n1 =? 3) && (negb (n4 =? 24) || (n100 =? 3)) in
    let m := Z.shiftr (n + 50) 5 in
    let preceding :=
      DAYS_BEFORE_MONTH m + (if (2 <? m) && leapyear then 1 else 0) in
    if n <? preceding then
      let m' := m - 1 in
      let preceding' :=
        preceding
        - (DAYS_IN_MONTH m' + (if (m' =? 2) && leapyear then 1 else 0)) in
      {| year := y; month := m'; day := n - preceding' + 1 |}
    else {| year := y; month := m; day := n - preceding + 1 |}.

(** [d - timedelta(days=k)]; the time of day is carried along unchanged and
    is left out. *)
Definition minus_days (d : date) (k : Z) : date := ord2ymd (ymd2ord d - k).

End Calendar.

(** ** The maintenance tables read by [EquipmentHistory] *)

(** The columns of [equipment] the history module selects. *)
Record EquipmentRow := {
  eq_status : string;
  monthly_pm : string;
  annual_pm : string }.

Record PmCompletion := {
  pm_bfm_equipment_no : string;
  completion_date : Calendar.date;
  pm_labor_hours : option Q }.

Record CorrectiveMaintenance := {
  cm_no : string;
  cm_bfm_equipment_no : string;
  reported_date : Calendar.date;
  cm_labor_hours : option Q }.

Record PartsRequest := {
  cpr_cm_number : string;
  requested_date : Calendar.date }.

(** ** The database and a connection to it *)

Record Database := {
  mro_inventory : gmap string InventoryItem;
  mro_stock_transactions : list StockTransaction;
  cm_parts_used : list PartsUsed;
  equipment : gmap string EquipmentRow;
  pm_completions : list PmCompletion;
  corrective_maintenance : list CorrectiveMaintenance;
  cm_parts_requests : list PartsRequest }.

(** The statements the two modules send, as the server's log shows them. *)
Inductive Statement :=
| SelectActiveParts
| SelectUnitPrice (part : string)
| InsertStockTransaction (row : StockTransaction)
| InsertPartsUsed (row : PartsUsed)
| UpdateQuantity (part : string) (qty : Q) (now : Timestamp)
| SelectEquipment (bfm_no : string)
| CountPm (bfm_no : string) (since : Calendar.date) (before : option Calendar.date)
| CountCm (bfm_no : string) (since : Calendar.date) (before : option Calendar.date)
| SumPmHours (bfm_no : string) (since : Calendar.date) (before : option Calendar.date)
| SumCmHours (bfm_no : string) (since : Calendar.date) (before : option Calendar.date)
| CountPartsRequests (bfm_no : string) (since : Calendar.date)
| Commit.

(** [committed] is what every session sees once a transaction has ended;
    [working] is what the open transaction of this connection sees;
    [outage = Some n] makes the round trip after the next [n] ones fail,
    once; [log] lists the statements the server has received. *)
Record Connection := {
  committed : Database;
  working : Database;
  outage : option nat;
  log : list Statement }.

(** A connection with no transaction in progress. *)
Definition connect (db : Database) : Connection :=
  {| committed := db; working := db; outage := None; log := [] |}.

Inductive Exn :=
| OperationalError      (* the server could not be reached *)
| ForeignKeyViolation   (* [part_number] references no [mro_inventory] row *)
| ValueError.           (* a text that is not the number expected *)

Inductive Res (A : Type) :=
| Ok (a : A)
| Raise (e : Exn).
Arguments Ok {A} a.
Arguments Raise {A} e.

(** Code that talks to the database: it may raise, and it changes the
    connection. *)
Definition Cur (A : Type) : Type := Connection -> Res A * Connection.

Definition ret {A} (a : A) : Cur A := fun c => (Ok a, c).

Definition bind {A B} (m : Cur A) (k : A -> Cur B) : Cur B :=
  fun c =>
    match m c with
    | (Ok a, c') => k a c'
    | (Raise e, c') => (Raise e, c')
    end.

Definition raise {A} (e : Exn) : Cur A := fun c => (Raise e, c).

Declare Scope cur_scope.
Delimit Scope cur_scope with cur.
Notation "x <- m ;; k" := (bind m (fun x => k))
  (at level 100, m at next level, right associativity) : cur_scope.
Notation "m ;; k" := (bind m (fun _ => k))
  (at level 100, right associativity) : cur_scope.

Definition with_working (f : Database -> Database) : Cur unit :=
  fun c =>
    (Ok tt, {| committed := committed c; working := f (working c);
               outage := outage c; log := log c |}).

Definition read {A} (f : Database -> A) : Cur A := fun c => (Ok (f (working c)), c).

(** One round trip: the statement reaches the server, or the call raises. *)
Definition round_trip (s : Statement) : Cur unit :=
  fun c =>
    match outage c with
    | Some O =>
        (Raise OperationalError,
         {| committed := committed c; working := working c;
            outage := None; log := log c |})
    | Some (S n) =>
        (Ok tt,
         {| committed := committed c; working := working c;
            outage := Some n; log := log c ++ [s] |})
    | None =>
        (Ok tt,
         {| committed := committed c; working := working c;
            outage := None; log := log c ++ [s] |})
    end.

(** [conn.commit()]. *)
Definition commit : Cur unit :=
  (round_trip Commit ;;
   fun c => (Ok tt, {| committed := working c; working := working c;
                       outage := outage c; log := log c |}))%cur.

(** [conn.rollback()]: the open transaction is dropped, also when the server
    is out of reach, as the server then drops it by itself. *)
Definition rollback (c : Connection) : Connection :=
  {| committed := committed c; working := committed c;
     outage := outage c; log := log c |}.

(** ** Statements of [cm_parts_integration.py] *)

(** A row of the parts list: [part_number, name, location,
    quantity_in_stock]. *)
Record PartRow := {
  row_part_number : string;
  row_name : string;
  row_location : string;
  row_quantity : Q }.

Definition part_row (kv : string * InventoryItem) : PartRow :=
  {| row_part_number := kv.1; row_name := name kv.2;
     row_location := location kv.2; row_quantity := quantity_in_stock kv.2 |}.

Definition by_part_number (a b : PartRow) : Prop :=
  Is_true (String.leb (row_part_number a) (row_part_number b)).

#[local] Instance by_part_number_dec a b : Decision (by_part_number a b).
Proof. unfold by_part_number. apply _. Defined.

(** [SELECT part_number, name, location, quantity_in_stock FROM mro_inventory
    WHERE status = 'Active' ORDER BY part_number]. *)
Definition active_parts (db : Database) : list PartRow :=
  merge_sort by_part_number
    (part_row <$>
       filter (fun kv => status kv.2 = "Active") (map_to_list (mro_inventory db))).

Definition select_active_parts : Cur (list PartRow) :=
  (round_trip SelectActiveParts ;; read active_parts)%cur.

(** [SELECT unit_price FROM mro_inventory WHERE part_number = %s], then
    [fetchone()]: no row, or a row with the price or [NULL]. *)
Definition select_unit_price (part : string) : Cur (option (option Q)) :=
  (round_trip (SelectUnitPrice part) ;;
   read (fun db => unit_price <$> mro_inventory db !! part))%cur.

Definition references_inventory (part : string) : Cur unit :=
  (known <- read (fun db => bool_decide (is_Some (mro_inventory db !! part))) ;;
   if known : bool then ret tt else raise ForeignKeyViolation)%cur.

(** [INSERT INTO mro_stock_transactions ...]; the foreign key on
    [part_number] is checked. *)
Definition insert_stock_transaction (row : StockTransaction) : Cur unit :=
  (round_trip (InsertStockTransaction row) ;;
   references_inventory (st_part_number row) ;;
   with_working (fun db =>
     {| mro_inventory := mro_inventory db;
        mro_stock_transactions := mro_stock_transactions db ++ [row];
        cm_parts_used := cm_parts_used db;
        equipment := equipment db;
        pm_completions := pm_completions db;
        corrective_maintenance := corrective_maintenance db;
        cm_parts_requests := cm_parts_requests db |}))%cur.

(** [INSERT INTO cm_parts_used ...]; the foreign key on [part_number] is
    checked. *)
Definition insert_parts_used (row : PartsUsed) : Cur unit :=
  (round_trip (InsertPartsUsed row) ;;
   references_inventory (pu_part_number row) ;;
   with_working (fun db =>
     {| mro_inventory := mro_inventory db;
        mro_stock_transactions := mro_stock_transactions db;
        cm_parts_used := cm_parts_used db ++ [row];
        equipment := equipment db;
        pm_completions := pm_completions db;
        corrective_maintenance := corrective_maintenance db;
        cm_parts_requests := cm_parts_requests db |}))%cur.

Definition decrement (qty : Q) (now : Timestamp) (it : InventoryItem) : InventoryItem :=
  {| name := name it; location := location it;
     quantity_in_stock := (quantity_in_stock it - qty)%Q;
     unit_price := unit_price it; status := status it;
     last_updated := now |}.

(** [UPDATE mro_inventory SET quantity_in_stock = quantity_in_stock - %s,
    last_updated = %s WHERE part_number = %s]: no row matched, no change. *)
Definition update_quantity (part : string) (qty : Q) (now : Timestamp) : Cur unit :=
  (round_trip (UpdateQuantity part qty now) ;;
   with_working (fun db =>
     {| mro_inventory := alter (decrement qty now) part (mro_inventory db);
        mro_stock_transactions := mro_stock_transactions db;
        cm_parts_used := cm_parts_used db;
        equipment := equipment db;
        pm_completions := pm_completions db;
        corrective_maintenance := corrective_maintenance db;
        cm_parts_requests := cm_parts_requests db |}))%cur.

(** ** [PartsConsumptionDialog] *)

(** An entry of [self.consumed_parts]. *)
Record ConsumedPart := {
  part_number : string;
  description : string;
  quantity : Q }.

(** What the message boxes say; numbers shown in a text are kept as
    numbers. *)
Inductive Message :=
| LoadFailed (e : Exn)                 (* "Failed to load MRO inventory" *)
| SelectPartFirst                      (* "Please select a part from the available parts list" *)
| QuantityNotPositive                  (* "Quantity must be greater than 0" *)
| InvalidQuantity                      (* "Invalid quantity value" *)
| PartOutOfStock (part : string) (qty_available : Q)
| InsufficientStock (part : string) (qty_used qty_available : Q)
| AlreadyInConsumedList                (* "This part is already in the consumed list. ..." *)
| AddedToConsumedList (part : string)
| SelectPartToRemove
| ContinueWithoutParts                 (* question, Yes or No *)
| CancelWithoutSaving                  (* question, Yes or No *)
| Recorded (parts : nat) (cm : string) (* "Successfully recorded n part(s) consumed for CM ..." *)
| RecordFailed (e : Exn).              (* "Failed to record parts consumption" *)

Inductive Event :=
| Show (m : Message)
| Rollback                             (* [self.conn.rollback()] *)
| Accept                               (* [self.accept()] *)
| Reject                               (* [self.reject()] *)
| Callback (success : bool).           (* [self.callback(success)] *)

(** The answer to a Yes/No question. *)
Inductive StandardButton := Yes | No.

(** The attributes of the dialog the slots read and write.  The tree of
    consumed parts shows [consumed_parts] entry by entry and is not kept
    apart; [callback] says whether a callback was given; [closed] is set by
    [accept()] and [reject()]. *)
Record Dialog := {
  cm_number : string;
  technician_name : string;
  callback : bool;
  consumed_parts : list ConsumedPart;
  all_parts_data : list PartRow;
  parts_tree : list PartRow;
  closed : bool }.

Definition set_all_parts_data (rows : list PartRow) (d : Dialog) : Dialog :=
  {| cm_number := cm_number d; technician_name := technician_name d;
     callback := callback d; consumed_parts := consumed_parts d;
     all_parts_data := rows; parts_tree := parts_tree d; closed := closed d |}.

Definition set_parts_tree (rows : list PartRow) (d : Dialog) : Dialog :=
  {| cm_number := cm_number d; technician_name := technician_name d;
     callback := callback d; consumed_parts := consumed_parts d;
     all_parts_data := all_parts_data d; parts_tree := rows; closed := closed d |}.

Definition set_consumed_parts (l : list ConsumedPart) (d : Dialog) : Dialog :=
  {| cm_number := cm_number d; technician_name := technician_name d;
     callback := callback d; consumed_parts := l;
     all_parts_data := all_parts_data d; parts_tree := parts_tree d;
     closed := closed d |}.

Definition close (d : Dialog) : Dialog :=
  {| cm_number := cm_number d; technician_name := technician_name d;
     callback := callback d; consumed_parts := consumed_parts d;
     all_parts_data := all_parts_data d; parts_tree := parts_tree d;
     closed := true |}.

(** [if self.callback: self.callback(success)]. *)
Definition call_back (d : Dialog) (success : bool) : list Event :=
  if callback d then [Callback success] else [].

(** [load_parts_data]: on an exception the message is shown and the list
    stays as it was. *)
Definition load_parts_data (d : Dialog) (c : Connection)
  : Dialog * Connection * list Event :=
  match select_active_parts c with
  | (Ok rows, c') => (set_all_parts_data rows d, c', [])
  | (Raise e, c') => (d, c', [Show (LoadFailed e)])
  end.

Definition lower_ascii (a : ascii) : ascii :=
  let n := nat_of_ascii a in
  if ((65 <=? n) && (n <=? 90))%nat then ascii_of_nat (n + 32) else a.

Fixpoint lower (s : string) : string :=
  match s with
  | EmptyString => EmptyString
  | String a r => String (lower_ascii a) (lower r)
  end.

(** [needle in hay]. *)
Fixpoint contains (needle hay : string) : bool :=
  String.prefix needle hay
  || match hay with
     | EmptyString => false
     | String _ r => contains needle r
     end.

(** [filter_parts]; [search_term] is the text of the search field, lowered
    and stripped. *)
Definition filter_parts (search_term : string) (d : Dialog) : Dialog :=
  set_parts_tree
    (List.filter
       (fun part =>
          (search_term =? "")%string
          || contains search_term (lower (row_part_number part))
          || contains search_term (lower (row_name part)))
       (all_parts_data d))
    d.

(** [__init__]: the search field starts empty. *)
Definition open_dialog (cm technician : string) (has_callback : bool) (c : Connection)
  : Dialog * Connection * list Event :=
  let d := {| cm_number := cm; technician_name := technician;
              callback := has_callback; consumed_parts := [];
              all_parts_data := []; parts_tree := []; closed := false |} in
  let '(d, c, evs) := load_parts_data d c in
  (filter_parts "" d, c, evs).

(** [add_consumed_part].  [selected] is the position of the selected row in
    the parts tree, if a row is selected; [qty_text] is what [float] makes
    of the text of the quantity field, [None] for a [ValueError]. *)
Definition add_consumed_part (selected : option nat) (qty_text : option Q) (d : Dialog)
  : Dialog * list Event :=
  match selected ≫= (fun i => parts_tree d !! i) with
  | None => (d, [Show SelectPartFirst])
  | Some item =>
      match qty_text with
      | None => (d, [Show InvalidQuantity])
      | Some qty_used =>
          if Qle_bool qty_used 0 then (d, [Show QuantityNotPositive])
          else
            let part_num := row_part_number item in
            let desc := row_name item in
            let qty_available := row_quantity item in
            if Qle_bool qty_available 0 then
              (d, [Show (PartOutOfStock part_num qty_available)])
            else if negb (Qle_bool qty_used qty_available) then
              (d, [Show (InsufficientStock part_num qty_used qty_available)])
            else if existsb (fun existing => (part_number existing =? part_num)%string)
                      (consumed_parts d) then
              (d, [Show AlreadyInConsumedList])
            else
              (set_consumed_parts
                 (consumed_parts d
                    ++ [{| part_number := part_num; description := desc;
                           quantity := qty_used |}])
                 d,
               [Show (AddedToConsumedList part_num)])
      end
  end.

(** [remove_consumed_part]; [selected] is the position of the selected row
    in the tree of consumed parts. *)
Definition remove_consumed_part (selected : option nat) (d : Dialog)
  : Dialog * list Event :=
  match selected ≫= (fun i => consumed_parts d !! i) with
  | None => (d, [Show SelectPartToRemove])
  | Some item =>
      let part_num := part_number item in
      (set_consumed_parts
         (List.filter (fun p => negb (part_number p =? part_num)%string)
            (consumed_parts d))
         d,
       [])
  end.

(** The body of the loop of [save_and_close], for one entry of
    [consumed_parts].  [now] stands for every [datetime.now()] of the call. *)
Definition record_part (d : Dialog) (now : Timestamp) (part : ConsumedPart) : Cur unit :=
  (result <- select_unit_price (part_number part) ;;
   let unit_price :=
     match result with
     | Some (Some price) => if Num.truthy price then price else 0%Q
     | _ => 0%Q
     end in
   let total_cost := (unit_price * quantity part)%Q in
   insert_stock_transaction
     {| st_part_number := part_number part;
        transaction_type := "Issue";
        st_quantity := (- quantity part)%Q;
        st_technician_name := technician_name d;
        st_notes := String.append "CM Work Order: " (cm_number d);
        transaction_date := now |} ;;
   insert_parts_used
     {| pu_cm_number := cm_number d;
        pu_part_number := part_number part;
        quantity_used := quantity part;
        total_cost := total_cost;
        recorded_date := now;
        recorded_by := technician_name d;
        pu_notes := String.append "Parts consumed during CM " (cm_number d) |} ;;
   update_quantity (part_number part) (quantity part) now)%cur.

Fixpoint record_parts (d : Dialog) (now : Timestamp) (parts : list ConsumedPart) : Cur unit :=
  match parts with
  | [] => ret tt
  | part :: rest => (record_part d now part ;; record_parts d now rest)%cur
  end.

(** [save_and_close].  [answer] is the reply to the question asked when the
    list is empty. *)
Definition save_and_close (answer : StandardButton) (now : Timestamp)
    (d : Dialog) (c : Connection) : Dialog * Connection * list Event :=
  match consumed_parts d with
  | [] =>
      match answer with
      | No => (d, c, [Show ContinueWithoutParts])
      | Yes => (close d, c, [Show ContinueWithoutParts; Accept] ++ call_back d true)
      end
  | _ :: _ =>
      match (record_parts d now (consumed_parts d) ;; commit)%cur c with
      | (Ok _, c') =>
          (close d, c',
           [Show (Recorded (length (consumed_parts d)) (cm_number d)); Accept]
             ++ call_back d true)
      | (Raise e, c') =>
          (d, rollback c', [Rollback; Show (RecordFailed e)] ++ call_back d false)
      end
  end.

(** [cancel_dialog]. *)
Definition cancel_dialog (answer : StandardButton) (d : Dialog) : Dialog * list Event :=
  match consumed_parts d, answer with
  | _ :: _, No => (d, [Show CancelWithoutSaving])
  | _ :: _, Yes => (close d, [Show CancelWithoutSaving; Reject] ++ call_back d false)
  | [], _ => (close d, [Reject] ++ call_back d false)
  end.

(** What the user does with an open dialog. *)
Inductive Action :=
| SearchChanged (search_term : string)
| AddClicked (selected : option nat) (qty_text : option Q)
| RemoveClicked (selected : option nat)
| SaveClicked (answer : StandardButton) (now : Timestamp)
| CancelClicked (answer : StandardButton).

(** The slot connected to each signal.  A closed dialog takes no more
    input. *)
Definition dispatch (a : Action) (d : Dialog) (c : Connection)
  : Dialog * Connection * list Event :=
  if closed d then (d, c, [])
  else
    match a with
    | SearchChanged term => (filter_parts term d, c, [])
    | AddClicked selected qty_text =>
        let '(d', evs) := add_consumed_part selected qty_text d in (d', c, evs)
    | RemoveClicked selected =>
        let '(d', evs) := remove_consumed_part selected d in (d', c, evs)
    | SaveClicked answer now => save_and_close answer now d c
    | CancelClicked answer =>
        let '(d', evs) := cancel_dialog answer d in (d', c, evs)
    end.

Fixpoint run (actions : list Action) (d : Dialog) (c : Connection)
  : Dialog * Connection * list Event :=
  match actions with
  | [] => (d, c, [])
  | a :: rest =>
      let '(d1, c1, evs1) := dispatch a d c in
      let '(d2, c2, evs2) := run rest d1 c1 in
      (d2, c2, evs1 ++ evs2)
  end.

(** ** [EquipmentHistory] *)

Module History.

Import Calendar.

(** [date >= since], and [date < before] when an upper end is given. *)
Definition in_window (since : date) (before : option date) (d : date) : bool :=
  date_leb since d
  && match before with
     | Some b => date_ltb d b
     | None => true
     end.

Definition pm_rows (bfm_no : string) (since : date) (before : option date)
    (db : Database) : list PmCompletion :=
  List.filter
    (fun r => (pm_bfm_equipment_no r =? bfm_no)%string
              && in_window since before (completion_date r))
    (pm_completions db).

Definition cm_rows (bfm_no : string) (since : date) (before : option date)
    (db : Database) : list CorrectiveMaintenance :=
  List.filter
    (fun r => (cm_bfm_equipment_no r =? bfm_no)%string
              && in_window since before (reported_date r))
    (corrective_maintenance db).

(** [COALESCE(SUM(labor_hours), 0)]: [NULL] hours are skipped. *)
Definition sum_hours (hours : list (option Q)) : Q :=
  Num.Qsum (omap id hours).

(** [SELECT status, monthly_pm, annual_pm FROM equipment WHERE
    bfm_equipment_no = %s], then [fetchone()]. *)
Definition select_equipment (bfm_no : string) : Cur (option EquipmentRow) :=
  (round_trip (SelectEquipment bfm_no) ;;
   read (fun db => equipment db !! bfm_no))%cur.

Definition count_pm (bfm_no : string) (since : date) (before : option date) : Cur Z :=
  (round_trip (CountPm bfm_no since before) ;;
   read (fun db => Z.of_nat (length (pm_rows bfm_no since before db))))%cur.

Definition count_cm (bfm_no : string) (since : date) (before : option date) : Cur Z :=
  (round_trip (CountCm bfm_no since before) ;;
   read (fun db => Z.of_nat (length (cm_rows bfm_no since before db))))%cur.

Definition sum_pm_hours (bfm_no : string) (since : date) (before : option date) : Cur Q :=
  (round_trip (SumPmHours bfm_no since before) ;;
   read (fun db => sum_hours (pm_labor_hours <$> pm_rows bfm_no since before db)))%cur.

Definition sum_cm_hours (bfm_no : string) (since : date) (before : option date) : Cur Q :=
  (round_trip (SumCmHours bfm_no since before) ;;
   read (fun db => sum_hours (cm_labor_hours <$> cm_rows bfm_no since before db)))%cur.

(** [SELECT COUNT( * ) FROM cm_parts_requests cpr JOIN corrective_maintenance
    cm ON cpr.cm_number = cm.cm_number WHERE cm.bfm_equipment_no = %s AND
    cpr.requested_date >= %s]. *)
Definition count_parts_requests (bfm_no : string) (since : date) : Cur Z :=
  (round_trip (CountPartsRequests bfm_no since) ;;
   read (fun db =>
     Z.of_nat (length
       (List.filter
          (fun pair : PartsRequest * CorrectiveMaintenance =>
             (cpr_cm_number pair.1 =? cm_no pair.2)%string
             && (cm_bfm_equipment_no pair.2 =? bfm_no)%string
             && date_leb since (requested_date pair.1))
          (list_prod (cm_parts_requests db) (corrective_maintenance db))))))%cur.

(** The dictionary [metrics]; the key [parts_count] is absent until it is
    assigned. *)
Record Metrics := {
  health_score : Z;
  pm_compliance : Z;
  cm_frequency : Q;
  downtime_days : Z;
  parts_cost : Z;
  labor_hours : Q;
  status : string;
  recommendations : list string;
  parts_count : option Z }.

Definition initial_metrics : Metrics :=
  {| health_score := 0; pm_compliance := 0; cm_frequency := 0;
     downtime_days := 0; parts_cost := 0; labor_hours := 0;
     status := "Unknown"; recommendations := []; parts_count := None |}.

(** [expected_pms]: 12 for a monthly PM, 1 for an annual one. *)
Definition expected_pms_of (equip_row : EquipmentRow) : Z :=
  (if (monthly_pm equip_row =? "X")%string then 12 else 0)
  + (if (annual_pm equip_row =? "X")%string then 1 else 0).

(** [min(100, int((completed_pms / expected_pms) * 100))] when
    [expected_pms > 0], else the initial 0. *)
Definition pm_compliance_of (completed_pms expected_pms : Z) : Z :=
  if 0 <? expected_pms then
    Z.min 100
      (Num.int_of_Q (inject_Z completed_pms / inject_Z expected_pms * 100)%Q)
  else 0.

(** [round(cm_count / 12, 1)]. *)
Definition cm_frequency_of (cm_count : Z) : Q :=
  Num.round1 (inject_Z cm_count / 12)%Q.

(** The value of [score] when it is truncated. *)
Definition score_of (pm_compliance : Z) (cm_frequency : Q) (status : string) : Q :=
  let score := 100%Q in
  let score := (score - inject_Z (100 - pm_compliance) * (3 # 10))%Q in
  let score :=
    if negb (Qle_bool cm_frequency 1)
    then (score - Num.Qmin 20 ((cm_frequency - 1) * 10))%Q
    else score in
  let score :=
    if negb (status =? "Active")%string then (score - 30)%Q else score in
  score.

(** [max(0, int(score))]. *)
Definition health_score_of (pm_compliance : Z) (cm_frequency : Q) (status : string) : Z :=
  Z.max 0 (Num.int_of_Q (score_of pm_compliance cm_frequency status)).

Definition recommendations_of (pm_compliance : Z) (cm_frequency : Q)
    (parts_count : Z) (status : string) : list string :=
  (if pm_compliance <? 80
   then ["Improve PM compliance - currently below 80%"] else [])
  ++ (if negb (Qle_bool cm_frequency 2)
      then ["High CM frequency - investigate root causes"] else [])
  ++ (if 20 <? parts_count
      then ["High parts usage - review equipment reliability"] else [])
  ++ (if negb (status =? "Active")%string
      then [String.append "Equipment status is '"
              (String.append status "' - review and update")]
      else []).

(** The [try] block of [get_equipment_health_score]; [now] is the date of
    [datetime.now()]. *)
Definition health_score_body (bfm_no : string) (now : date) : Cur Metrics :=
  (let metrics := initial_metrics in
   equip_row <- select_equipment bfm_no ;;
   match equip_row with
   | None => ret metrics
   | Some equip_row =>
       let status := eq_status equip_row in
       let one_year_ago := minus_days now 365 in
       let expected_pms := expected_pms_of equip_row in
       completed_pms <- count_pm bfm_no one_year_ago None ;;
       let pm_compliance := pm_compliance_of completed_pms expected_pms in
       cm_count <- count_cm bfm_no one_year_ago None ;;
       let cm_frequency := cm_frequency_of cm_count in
       pm_hours <- sum_pm_hours bfm_no one_year_ago None ;;
       cm_hours <- sum_cm_hours bfm_no one_year_ago None ;;
       let labor_hours := (pm_hours + cm_hours)%Q in
       parts_count <- count_parts_requests bfm_no one_year_ago ;;
       let health_score := health_score_of pm_compliance cm_frequency status in
       let recommendations :=
         recommendations_of pm_compliance cm_frequency parts_count status in
       commit ;;
       ret {| health_score := health_score; pm_compliance := pm_compliance;
              cm_frequency := cm_frequency; downtime_days := 0;
              parts_cost := 0; labor_hours := labor_hours; status := status;
              recommendations := recommendations;
              parts_count := Some parts_count |}
   end)%cur.

(** [try: ... except Exception as e: rollback; raise e]. *)
Definition or_rollback {A} (body : Cur A) : Cur A :=
  fun c =>
    match body c with
    | (Ok a, c') => (Ok a, c')
    | (Raise e, c') => (Raise e, rollback c')
    end.

Definition get_equipment_health_score (bfm_no : string) (now : date) : Cur Metrics :=
  or_rollback (health_score_body bfm_no now).

(** *** Trends *)

Definition digits (n : Z) : string := NilZero.string_of_uint (N.to_uint (Z.to_N n)).

Fixpoint zeros (n : nat) : string :=
  match n with
  | O => ""
  | S k => String "0" (zeros k)
  end.

Definition zero_pad (width : nat) (s : string) : string :=
  String.append (zeros (width - String.length s)) s.

(** [strftime('%Y-%m')], the year on four digits. *)
Definition strftime_Ym (d : date) : string :=
  String.append (zero_pad 4 (digits (year d)))
    (String.append "-" (zero_pad 2 (digits (month d)))).

(** [s.split('-')]. *)
Fixpoint split_dash (s : string) : list string :=
  match s with
  | EmptyString => [""]
  | String a r =>
      if (a =? "-")%char then "" :: split_dash r
      else match split_dash r with
           | [] => [String a ""]
           | w :: ws => String a w :: ws
           end
  end.

(** [int(s)] on a string of decimal digits. *)
Definition int_of_string (s : string) : option Z :=
  (fun u => Z.of_N (N.of_uint u)) <$> NilZero.uint_of_string s.

(** [year, mon = map(int, month.split('-'))]. *)
Definition year_mon (label : string) : option (Z * Z) :=
  match split_dash label with
  | [y; m] =>
      match int_of_string y, int_of_string m with
      | Some year, Some mon => Some (year, mon)
      | _, _ => None
      end
  | _ => None
  end.

(** The labels: [for i in range(months): month_date = current_date -
    timedelta(days=30 * i); trends['months'].insert(0, ...)]. *)
Definition month_labels (current_date : date) (months : Z) : list string :=
  fold_left
    (fun labels i =>
       let month_date := minus_days current_date (30 * Z.of_nat i) in
       strftime_Ym month_date :: labels)
    (seq 0 (Z.to_nat months)) [].

Definition month_start_of (year mon : Z) : date :=
  {| Calendar.year := year; Calendar.month := mon; Calendar.day := 1 |}.

Definition month_end_of (year mon : Z) : date :=
  if mon =? 12 then {| Calendar.year := year + 1; Calendar.month := 1; Calendar.day := 1 |}
  else {| Calendar.year := year; Calendar.month := mon + 1; Calendar.day := 1 |}.

(** The dictionary [trends]. *)
Record Trends := {
  monthly_pm_counts : list Z;
  monthly_cm_counts : list Z;
  monthly_labor_hours : list Q;
  monthly_parts_cost : list Z;
  months : list string }.

Definition add_bucket (pm cm : Z) (hours : Q) (t : Trends) : Trends :=
  {| monthly_pm_counts := monthly_pm_counts t ++ [pm];
     monthly_cm_counts := monthly_cm_counts t ++ [cm];
     monthly_labor_hours := monthly_labor_hours t ++ [hours];
     monthly_parts_cost := monthly_parts_cost t;
     months := months t |}.

(** The loop [for month in trends['months']]. *)
Fixpoint monthly_data (bfm_no : string) (labels : list string) (trends : Trends)
  : Cur Trends :=
  match labels with
  | [] => ret trends
  | month :: rest =>
      match year_mon month with
      | None => raise ValueError
      | Some (year, mon) =>
          (let month_start := month_start_of year mon in
           let month_end := month_end_of year mon in
           pm <- count_pm bfm_no month_start (Some month_end) ;;
           cm <- count_cm bfm_no month_start (Some month_end) ;;
           pm_hours <- sum_pm_hours bfm_no month_start (Some month_end) ;;
           cm_hours <- sum_cm_hours bfm_no month_start (Some month_end) ;;
           monthly_data bfm_no rest (add_bucket pm cm (pm_hours + cm_hours)%Q trends))%cur
      end
  end.

Definition get_maintenance_trends (bfm_no : string) (months : Z) (now : date)
  : Cur Trends :=
  or_rollback
    (let trends :=
       {| monthly_pm_counts := []; monthly_cm_counts := [];
          monthly_labor_hours := []; monthly_parts_cost := [];
          History.months := month_labels now months |} in
     trends <- monthly_data bfm_no (History.months trends) trends ;;
     commit ;;
     ret trends)%cur.

End History.

(** ** Notions used to state the properties *)




(** A computation [keeps_committed] when it never touches what is
    committed. *)
Definition keeps_committed {A} (m : Cur A) : Prop :=
  forall c, committed (m c).2 = committed c.

(** The preconditions of one item, read in a given inventory. *)
Definition preconditions_hold (db : Database) (part : ConsumedPart) : Prop :=
  exists item,
    mro_inventory db !! part_number part = Some item
    /\ status item = "Active"
    /\ (0 < quantity_in_stock item)%Q
    /\ (0 < quantity part)%Q
    /\ (quantity part <= quantity_in_stock item)%Q.


(** No stocked part has a negative quantity. *)
Definition stock_nonnegative (db : Database) : Prop :=
  forall part item,
    mro_inventory db !! part = Some item -> (0 <= quantity_in_stock item)%Q.

(** No part is entered twice. *)
Definition no_duplicate_parts (d : Dialog) : Prop :=
  NoDup (part_number <$> consumed_parts d).

(** The dialogs a user can reach from a dialog opened on [c_open]. *)
Definition dialog_after (cm technician : string) (has_callback : bool)
    (c_open : Connection) (actions : list Action) : Dialog * Connection :=
  let '(d, c, _) := open_dialog cm technician has_callback c_open in
  (run actions d c).1.


(** The empty batch read as an unconditional success. *)
Definition empty_batch_always_succeeds : Prop :=
  forall answer now d c,
    consumed_parts d = [] ->
    callback d = true ->
    closed d = false ->
    (save_and_close answer now d c).1.2 = c
    /\ In (Callback true) (save_and_close answer now d c).2.

(** The health score as the specification words it. *)
Module Spec.

(** [min(100, completed / expected * 100)], and 0 when nothing is expected. *)
Definition pm_compliance (completed expected : Z) : Q :=
  if expected =? 0 then 0%Q
  else Num.Qmin 100 (inject_Z completed / inject_Z expected * 100)%Q.

(** Start at 100, subtract the three deductions, clamp to [0, 100],
    truncate. *)
Definition health_score (pm_compliance cm_frequency : Q) (status : string) : Z :=
  let score := 100%Q in
  let score := (score - (100 - pm_compliance) * (3 # 10))%Q in
  let score :=
    if negb (Qle_bool cm_frequency 1)
    then (score - Num.Qmin 20 ((cm_frequency - 1) * 10))%Q
    else score in
  let score :=
    if negb (status =? "Active")%string then (score - 30)%Q else score in
  Num.int_of_Q (Num.Qmax 0 (Num.Qmin 100 score)).

(** The score computed from the counts with the compliance not truncated. *)
Definition health_score_untruncated : Prop :=
  forall completed expected cm_frequency status,
    0 <= completed -> 0 <= expected ->
    History.health_score_of (History.pm_compliance_of completed expected)
      cm_frequency status
    = health_score (pm_compliance completed expected) cm_frequency status.

End Spec.

(** The arithmetic of the health score once more, on binary64 floats as
    Python computes it, to compare with the exact arithmetic of [History]. *)
Module Binary64.

Definition of_Z (z : Z) : float := PrimFloat.of_uint63 (Uint63.of_Z z).

(** [int(x)]. *)
Definition int_of_float (x : float) : Z :=
  match Prim2SF x with
  | S754_finite s m e =>
      let v := if 0 <=? e then Z.pos m * 2 ^ e else Z.pos m / 2 ^ (- e) in
      if s then - v else v
  | _ => 0
  end.

(** The number a float stands for. *)
Definition Q_of_float (x : float) : Q :=
  match Prim2SF x with
  | S754_finite s m e =>
      let v := if 0 <=? e then inject_Z (Z.pos m * 2 ^ e)
               else Qmake (Z.pos m) (Z.to_pos (2 ^ (- e))) in
      if s then Qopp v else v
  | _ => 0%Q
  end.

(** [round(x, 1)]: the float nearest to the decimal that is nearest to [x],
    ties to even. *)
Definition tenths (x : float) : Z := Num.round_half_even (Q_of_float x * 10).
Definition round1 (x : float) : float := (of_Z (tenths x) / of_Z 10)%float.

Definition pm_compliance_of (completed_pms expected_pms : Z) : Z :=
  if 0 <? expected_pms then
    Z.min 100
      (int_of_float (of_Z completed_pms / of_Z expected_pms * of_Z 100)%float)
  else 0.

Definition cm_frequency_of (cm_count : Z) : float :=
  round1 (of_Z cm_count / of_Z 12)%float.

Definition health_score_of (pm_compliance : Z) (cm_frequency : float)
    (active : bool) : Z :=
  let score :=
    (of_Z 100 - of_Z (100 - pm_compliance) * (of_Z 3 / of_Z 10))%float in
  let score :=
    if (of_Z 1 <? cm_frequency)%float then
      let v := ((cm_frequency - of_Z 1) * of_Z 10)%float in
      (score - (if (v <? of_Z 20)%float then v else of_Z 20))%float
    else score in
  let score := if negb active then (score - of_Z 30)%float else score in
  Z.max 0 (int_of_float score).

(** Same compliance, same frequency in tenths, same score and same answer to
    [cm_frequency > 2]. *)
Definition agrees (completed expected cm_count : Z) (active : bool) : bool :=
  let status := if active then "Active" else "Out of Service" in
  (pm_compliance_of completed expected
   =? History.pm_compliance_of completed expected)
  && (tenths (of_Z cm_count / of_Z 12)%float
      =? Num.round_half_even (inject_Z cm_count / 12 * 10)%Q)
  && (health_score_of (pm_compliance_of completed expected)
        (cm_frequency_of cm_count) active
      =? History.health_score_of (History.pm_compliance_of completed expected)
           (History.cm_frequency_of cm_count) status)
  && Bool.eqb (of_Z 2 <? cm_frequency_of cm_count)%float
       (negb (Qle_bool (History.cm_frequency_of cm_count) 2)).

Definition upto (n : nat) : list Z := List.map Z.of_nat (List.seq 0 (S n)).

(** Up to 26 completions, every value of [expected_pms], up to 40 corrective
    work orders, both kinds of status. *)
Definition agrees_on_grid : bool :=
  forallb
    (fun completed =>
       forallb
         (fun expected =>
            forallb
              (fun cm_count =>
                 agrees completed expected cm_count true
                 && agrees completed expected cm_count false)
              (upto 40))
         [0; 1; 12; 13])
    (upto 26).

End Binary64.

(** What [get_equipment_health_score] reads for an equipment that exists. *)
Module Window.

Import Calendar History.

Definition since (now : date) : date := minus_days now 365.

Definition completed_pms (db : Database) (bfm_no : string) (now : date) : Z :=
  Z.of_nat (length (pm_rows bfm_no (since now) None db)).

Definition cm_count (db : Database) (bfm_no : string) (now : date) : Z :=
  Z.of_nat (length (cm_rows bfm_no (since now) None db)).

Definition parts_requests (db : Database) (bfm_no : string) (now : date) : Z :=
  Z.of_nat (length
    (List.filter
       (fun pair : PartsRequest * CorrectiveMaintenance =>
          (cpr_cm_number pair.1 =? cm_no pair.2)%string
          && (cm_bfm_equipment_no pair.2 =? bfm_no)%string
          && date_leb (since now) (requested_date pair.1))
       (list_prod (cm_parts_requests db) (corrective_maintenance db)))).

End Window.

(** *** Sample data *)

Module Sample.

Import Calendar.

Definition bearing (qty : Q) : InventoryItem :=
  {| name := "Bearing 6204"; location := "A-01"; quantity_in_stock := qty;
     unit_price := Some (5 # 2)%Q; status := "Active"; last_updated := 0 |}.

Definition seal : InventoryItem :=
  {| name := "Shaft seal"; location := "A-02"; quantity_in_stock := 4;
     unit_price := None; status := "Active"; last_updated := 0 |}.

Definition stock (inventory : gmap string InventoryItem) : Database :=
  {| mro_inventory := inventory; mro_stock_transactions := [];
     cm_parts_used := []; equipment := ∅; pm_completions := [];
     corrective_maintenance := []; cm_parts_requests := [] |}.

(** BRG-100 with ten in stock. *)
Definition ten_bearings : Database := stock {[ "BRG-100" := bearing 10 ]}.

(** A dialog opened while BRG-100 and SEAL-9 were both stocked, with three
    bearings and one seal entered. *)
Definition two_parts_entered : Dialog :=
  (dialog_after "CM-001" "J.Smith" true
     (connect (stock {[ "BRG-100" := bearing 10; "SEAL-9" := seal ]}))
     [AddClicked (Some 0%nat) (Some 3%Q); AddClicked (Some 1%nat) (Some 1%Q)]).1.



(** Scenario C, first half: three bearings are in the pending list. *)
Definition three_entered : Dialog * Connection :=
  dialog_after "CM-001" "J.Smith" true (connect ten_bearings)
    [AddClicked (Some 0%nat) (Some 3%Q)].

(** Two technicians open the dialog while ten bearings are in stock; each
    enters seven; they save one after the other.  The result is what each
    saw, and the connection at the end. *)
Definition two_technicians : list Event * list Event * Connection :=
  let c0 := connect ten_bearings in
  let '(dA, c1, _) := open_dialog "CM-001" "J.Smith" true c0 in
  let '(dB, c2, _) := open_dialog "CM-002" "A.Jones" true c1 in
  let '(_, c3, events_A) :=
    run [AddClicked (Some 0%nat) (Some 7%Q); SaveClicked Yes 1] dA c2 in
  let '(_, c4, events_B) :=
    run [AddClicked (Some 0%nat) (Some 7%Q); SaveClicked Yes 2] dB c3 in
  (events_A, events_B, c4).

(** A dialog just opened, nothing entered. *)
Definition nothing_entered : Dialog :=
  (dialog_after "CM-001" "J.Smith" true (connect ten_bearings) []).1.


Definition on (y m d : Z) : date := {| year := y; month := m; day := d |}.

Definition pm_on (bfm_no : string) (d : date) : PmCompletion :=
  {| pm_bfm_equipment_no := bfm_no; completion_date := d;
     pm_labor_hours := Some (3 # 2)%Q |}.

Definition plant (equip : gmap string EquipmentRow) (pms : list PmCompletion)
    (cms : list CorrectiveMaintenance) (requests : list PartsRequest) : Database :=
  {| mro_inventory := ∅; mro_stock_transactions := []; cm_parts_used := [];
     equipment := equip; pm_completions := pms;
     corrective_maintenance := cms; cm_parts_requests := requests |}.

Definition pump (monthly annual : string) : EquipmentRow :=
  {| eq_status := "Active"; monthly_pm := monthly; annual_pm := annual |}.

Definition today : date := on 2025 10 1.

(** Scenario D: monthly PM only, nine completions in the last twelve months,
    no corrective work, status Active. *)
Definition scenario_D : Database :=
  plant {[ "PUMP-7" := pump "X" "" ]}
    (pm_on "PUMP-7"
       <$> [on 2025 1 10; on 2025 2 10; on 2025 3 10; on 2025 4 10; on 2025 5 10;
            on 2025 6 10; on 2025 7 10; on 2025 8 10; on 2025 9 10])
    [] [].

Definition metrics_D : History.Metrics :=
  match (History.get_equipment_health_score "PUMP-7" today (connect scenario_D)).1 with
  | Ok m => m
  | Raise _ => History.initial_metrics
  end.

(** Monthly and annual PM, seven completions. *)
Definition seven_of_thirteen : Database :=
  plant {[ "FAN-2" := pump "X" "X" ]}
    (pm_on "FAN-2"
       <$> [on 2025 1 10; on 2025 2 10; on 2025 3 10; on 2025 4 10; on 2025 5 10;
            on 2025 6 10; on 2025 7 10])
    [] [].

(** One PM completed in February 2025 and one in March 2025. *)
Definition february_and_march : Database :=
  plant {[ "PUMP-7" := pump "X" "" ]}
    [pm_on "PUMP-7" (on 2025 2 10); pm_on "PUMP-7" (on 2025 3 5)] [] [].

End Sample.

(** ** What a save writes, row by row *)

(** The row of [mro_stock_transactions] written for one item. *)
Definition issue_row (d : Dialog) (now : Timestamp) (part : ConsumedPart)
  : StockTransaction :=
  {| st_part_number := part_number part;
     transaction_type := "Issue";
     st_quantity := (- quantity part)%Q;
     st_technician_name := technician_name d;
     st_notes := String.append "CM Work Order: " (cm_number d);
     transaction_date := now |}.

(** The unit price [save_and_close] reads for an item: 0 when the part is
    gone, or its price is [NULL] or 0. *)
Definition price_read (db : Database) (part : ConsumedPart) : Q :=
  match unit_price <$> mro_inventory db !! part_number part with
  | Some (Some price) => if Num.truthy price then price else 0%Q
  | _ => 0%Q
  end.

(** The row of [cm_parts_used] written for one item, with the price read
    in [db]. *)
Definition usage_row (d : Dialog) (now : Timestamp) (db : Database)
    (part : ConsumedPart) : PartsUsed :=
  {| pu_cm_number := cm_number d;
     pu_part_number := part_number part;
     quantity_used := quantity part;
     total_cost := (price_read db part * quantity part)%Q;
     recorded_date := now;
     recorded_by := technician_name d;
     pu_notes := String.append "Parts consumed during CM " (cm_number d) |}.

(** The four statements sent for one item. *)
Definition statements_for (d : Dialog) (now : Timestamp) (db : Database)
    (part : ConsumedPart) : list Statement :=
  [SelectUnitPrice (part_number part);
   InsertStockTransaction (issue_row d now part);
   InsertPartsUsed (usage_row d now db part);
   UpdateQuantity (part_number part) (quantity part) now].


(** [outage] after [k] more round trips that all went through. *)
Definition outage_after (k : nat) (o : option nat) : option nat :=
  (fun n => (n - k)%nat) <$> o.

(** The server stays in reach for the next [k] round trips. *)
Definition in_reach_for (k : nat) (c : Connection) : Prop :=
  match outage c with
  | None => True
  | Some n => (k <= n)%nat
  end.

(** The open transaction after one item has been recorded. *)
Definition write_part (d : Dialog) (now : Timestamp) (db : Database)
    (part : ConsumedPart) : Database :=
  {| mro_inventory :=
       alter (decrement (quantity part) now) (part_number part) (mro_inventory db);
     mro_stock_transactions := mro_stock_transactions db ++ [issue_row d now part];
     cm_parts_used := cm_parts_used db ++ [usage_row d now db part];
     equipment := equipment db;
     pm_completions := pm_completions db;
     corrective_maintenance := corrective_maintenance db;
     cm_parts_requests := cm_parts_requests db |}.

Definition write_parts (d : Dialog) (now : Timestamp) (parts : list ConsumedPart)
    (db : Database) : Database :=
  fold_left (write_part d now) parts db.

(** The statements sent for a list of items, in order. *)
Fixpoint batch_statements (d : Dialog) (now : Timestamp) (db : Database)
    (parts : list ConsumedPart) : list Statement :=
  match parts with
  | [] => []
  | part :: rest =>
      statements_for d now db part
        ++ batch_statements d now (write_part d now db part) rest
  end.


(** The clicks on "Save and Complete". *)
Definition is_save (a : Action) : bool :=
  match a with
  | SaveClicked _ _ => true
  | _ => false
  end.



(** ** [CMPartsDetailsDialog] *)

(** A row of [parts_data]: [cp.part_number, mi.name, cp.quantity_used,
    cp.total_cost, cp.recorded_date, cp.recorded_by, cp.notes]; the name is
    [NULL] when the left join finds no inventory row. *)
Record PartsDataRow := {
  cp_part_number : string;
  mi_name : option string;
  cp_quantity_used : Q;
  cp_total_cost : Q;
  cp_recorded_date : Timestamp;
  cp_recorded_by : string;
  cp_notes : string }.

Definition left_join_inventory (db : Database) (u : PartsUsed) : PartsDataRow :=
  {| cp_part_number := pu_part_number u;
     mi_name := name <$> mro_inventory db !! pu_part_number u;
     cp_quantity_used := quantity_used u;
     cp_total_cost := total_cost u;
     cp_recorded_date := recorded_date u;
     cp_recorded_by := recorded_by u;
     cp_notes := pu_notes u |}.

Definition newest_first (a b : PartsDataRow) : Prop :=
  cp_recorded_date b <= cp_recorded_date a.

#[local] Instance newest_first_dec a b : Decision (newest_first a b).
Proof. unfold newest_first. apply _. Defined.

(** The rows of [cm_parts_used] of one work order. *)
Definition used_for (cm : string) (db : Database) : list PartsUsed :=
  List.filter (fun u => (pu_cm_number u =? cm)%string) (cm_parts_used db).

(** [SELECT ... FROM cm_parts_used cp LEFT JOIN mro_inventory mi ON
    cp.part_number = mi.part_number WHERE cp.cm_number = %s ORDER BY
    cp.recorded_date DESC]. *)
Definition select_cm_parts (cm : string) (db : Database) : list PartsDataRow :=
  merge_sort newest_first (left_join_inventory db <$> used_for cm db).

Inductive SummaryLabel :=
| NoPartsRecorded             (* "No parts recorded for this CM" *)
| TotalParts (n : nat).       (* "Total: n part(s)" *)

(** A row of the tree of the details dialog; quantity and cost are kept as
    numbers. *)
Record DetailsItem := {
  di_part_number : string;
  di_description : string;
  di_qty_used : Q;
  di_cost : Q;
  di_recorded_by : string }.

(** [x if x else "N/A"] on a text that may be [NULL]. *)
Definition or_NA (s : option string) : string :=
  match s with
  | Some text => if (text =? "")%string then "N/A" else text
  | None => "N/A"
  end.

(** [x if x else 0.0]. *)
Definition or_zero (q : Q) : Q := if Num.truthy q then q else 0%Q.

Definition details_item (part : PartsDataRow) : DetailsItem :=
  {| di_part_number := cp_part_number part;
     di_description := or_NA (mi_name part);
     di_qty_used := or_zero (cp_quantity_used part);
     di_cost := or_zero (cp_total_cost part);
     di_recorded_by := or_NA (Some (cp_recorded_by part)) |}.

(** What the details dialog shows: the summary label, the tree, and the
    total cost label, which stays empty when there is no row. *)
Record DetailsView := {
  summary_label : SummaryLabel;
  details_tree : list DetailsItem;
  total_cost_label : option Q }.

(** [CMPartsDetailsDialog.load_parts_data], from [parts_data] on. *)
Definition show_parts_data (parts_data : list PartsDataRow) : DetailsView :=
  match parts_data with
  | [] =>
      {| summary_label := NoPartsRecorded; details_tree := [];
         total_cost_label := None |}
  | _ :: _ =>
      {| summary_label := TotalParts (length parts_data);
         details_tree := details_item <$> parts_data;
         total_cost_label :=
           Some (fold_left (fun total part => (total + or_zero (cp_total_cost part))%Q)
                   parts_data 0%Q) |}
  end.

(** The cost of a list of items at the prices of [db]. *)
Definition batch_cost (db : Database) (parts : list ConsumedPart) : Q :=
  Num.Qsum ((fun part => price_read db part * quantity part)%Q <$> parts).

(** ** The health score seen from outside *)

(** The statements of one call of [get_equipment_health_score] for an
    equipment that is in the table, in the order they are sent. *)
Definition health_score_statements (bfm_no : string) (now : Calendar.date)
  : list Statement :=
  let one_year_ago := Calendar.minus_days now 365 in
  [SelectEquipment bfm_no;
   CountPm bfm_no one_year_ago None;
   CountCm bfm_no one_year_ago None;
   SumPmHours bfm_no one_year_ago None;
   SumCmHours bfm_no one_year_ago None;
   CountPartsRequests bfm_no one_year_ago;
   Commit].

(** The end of the text of [_display_health_score]: one line per
    recommendation, or the line that says there is none. *)
Definition recommendation_lines (health : History.Metrics) : list string :=
  ((fun rec => String.append "- " rec) <$> History.recommendations health)
  ++ match History.recommendations health with
     | [] => ["- No issues detected. Equipment is performing well."]
     | _ :: _ => []
     end.

(** [health.get('parts_count', 0)]. *)
Definition parts_requests_shown (health : History.Metrics) : Z :=
  default 0 (History.parts_count health).

(** A date of the calendar, as far as the month buckets need it. *)
Definition plausible (d : Calendar.date) : Prop :=
  1 <= Calendar.month d <= 12 /\ 1 <= Calendar.day d.

(** The metrics a call returned. *)
Definition returned (r : Res History.Metrics * Connection) : History.Metrics :=
  match r.1 with
  | Ok m => m
  | Raise _ => History.initial_metrics
  end.

(** More sample data. *)
Module Fleet.

Import Calendar.

(** A compressor with an annual PM, done in March 2025, and a mixer taken
    out of service that has no PM at all. *)
Definition compressor : EquipmentRow :=
  {| eq_status := "Active"; monthly_pm := ""; annual_pm := "X" |}.

Definition mixer : EquipmentRow :=
  {| eq_status := "Out of Service"; monthly_pm := ""; annual_pm := "" |}.

Definition workshop : Database :=
  Sample.plant {[ "CMP-1" := compressor; "MIX-3" := mixer ]}
    [Sample.pm_on "CMP-1" (Sample.on 2025 3 10)] [] [].

(** The fan of [Sample.seven_of_thirteen] with two more completions. *)
Definition nine_of_thirteen : Database :=
  Sample.plant {[ "FAN-2" := Sample.pump "X" "X" ]}
    (Sample.pm_on "FAN-2"
       <$> [Sample.on 2025 1 10; Sample.on 2025 2 10; Sample.on 2025 3 10;
            Sample.on 2025 4 10; Sample.on 2025 5 10; Sample.on 2025 6 10;
            Sample.on 2025 7 10; Sample.on 2025 8 10; Sample.on 2025 9 10])
    [] [].

(** A connection that has the PM of the compressor pending, on which the
    fourth round trip from now will fail. *)
Definition mid_transaction : Connection :=
  {| committed :=
       Sample.plant {[ "CMP-1" := compressor; "MIX-3" := mixer ]} [] [] [];
     working := workshop;
     outage := Some 3%nat;
     log := [] |}.

End Fleet.

(** ** The months of the trends *)

(** The dates the labels are made from, oldest first. *)
Definition month_dates (current_date : Calendar.date) (months : Z)
  : list Calendar.date :=
  fold_left
    (fun dates i =>
       Calendar.minus_days current_date (30 * Z.of_nat i) :: dates)
    (seq 0 (Z.to_nat months)) [].

(** The bounds of the bucket of the month of [d]. *)
Definition bucket_start (d : Calendar.date) : Calendar.date :=
  History.month_start_of (Calendar.year d) (Calendar.month d).

Definition bucket_end (d : Calendar.date) : Calendar.date :=
  History.month_end_of (Calendar.year d) (Calendar.month d).

(** The four statements sent for the month of [d]. *)
Definition bucket_statements (bfm_no : string) (d : Calendar.date)
  : list Statement :=
  [CountPm bfm_no (bucket_start d) (Some (bucket_end d));
   CountCm bfm_no (bucket_start d) (Some (bucket_end d));
   SumPmHours bfm_no (bucket_start d) (Some (bucket_end d));
   SumCmHours bfm_no (bucket_start d) (Some (bucket_end d))].

Definition bucket_pm_count (bfm_no : string) (db : Database) (d : Calendar.date) : Z :=
  Z.of_nat (length (History.pm_rows bfm_no (bucket_start d) (Some (bucket_end d)) db)).

Definition bucket_cm_count (bfm_no : string) (db : Database) (d : Calendar.date) : Z :=
  Z.of_nat (length (History.cm_rows bfm_no (bucket_start d) (Some (bucket_end d)) db)).

Definition bucket_labor_hours (bfm_no : string) (db : Database) (d : Calendar.date) : Q :=
  (History.sum_hours
     (pm_labor_hours
        <$> History.pm_rows bfm_no (bucket_start d) (Some (bucket_end d)) db)
   + History.sum_hours
       (cm_labor_hours
          <$> History.cm_rows bfm_no (bucket_start d) (Some (bucket_end d)) db))%Q.

(** The PM completions and the corrective work orders of an equipment in a
    calendar month. *)
Definition pms_of_month (bfm_no : string) (year mon : Z) (db : Database)
  : list PmCompletion :=
  List.filter
    (fun r => (pm_bfm_equipment_no r =? bfm_no)%string
              && ((Calendar.year (completion_date r) =? year)
                  && (Calendar.month (completion_date r) =? mon)))
    (pm_completions db).

Definition cms_of_month (bfm_no : string) (year mon : Z) (db : Database)
  : list CorrectiveMaintenance :=
  List.filter
    (fun r => (cm_bfm_equipment_no r =? bfm_no)%string
              && ((Calendar.year (reported_date r) =? year)
                  && (Calendar.month (reported_date r) =? mon)))
    (corrective_maintenance db).

(** No ['-'] in the text. *)
Fixpoint dashless (s : string) : bool :=
  match s with
  | EmptyString => true
  | String a r => negb (a =? "-")%char && dashless r
  end.

(** ** Closing the dialog *)



(** * Properties *)

(** ** The connection monad *)

Section CursorFacts.

Lemma keeps_ret {A} (a : A) : keeps_committed (ret a).
Proof. intros c. reflexivity. Qed.

Lemma keeps_raise {A} (e : Exn) : keeps_committed (@raise A e).
Proof. intros c. reflexivity. Qed.

Lemma keeps_bind {A B} (m : Cur A) (k : A -> Cur B) :
  keeps_committed m -> (forall a, keeps_committed (k a)) ->
  keeps_committed (bind m k).
Proof.
  intros Hm Hk c. unfold bind. specialize (Hm c).
  destruct (m c) as [[a|e] c1]; simpl in *.
  - rewrite Hk. exact Hm.
  - exact Hm.
Qed.

Lemma keeps_round_trip s : keeps_committed (round_trip s).
Proof. intros c. unfold round_trip. destruct (outage c) as [[|n]|]; reflexivity. Qed.

Lemma keeps_read {A} (f : Database -> A) : keeps_committed (read f).
Proof. intros c. reflexivity. Qed.

Lemma keeps_with_working f : keeps_committed (with_working f).
Proof. intros c. reflexivity. Qed.

End CursorFacts.

Create HintDb keeps.

#[local] Hint Resolve keeps_ret keeps_raise keeps_round_trip keeps_read
  keeps_with_working : keeps.

Ltac keeps_committed_tac :=
  repeat first
    [ apply keeps_bind; [| intros ?]
    | solve [auto with keeps]
    | match goal with |- keeps_committed (if ?b then _ else _) => destruct b end
    | match goal with |- keeps_committed (match ?x with _ => _ end) => destruct x end ].

Lemma keeps_references_inventory part : keeps_committed (references_inventory part).
Proof. unfold references_inventory. keeps_committed_tac. Qed.

#[local] Hint Resolve keeps_references_inventory : keeps.

Lemma keeps_record_part d now part : keeps_committed (record_part d now part).
Proof.
  unfold record_part, select_unit_price, insert_stock_transaction,
    insert_parts_used, update_quantity.
  keeps_committed_tac.
Qed.

Lemma keeps_record_parts d now parts : keeps_committed (record_parts d now parts).
Proof.
  induction parts as [|part rest IH]; simpl.
  - apply keeps_ret.
  - apply keeps_bind; [apply keeps_record_part | intros _; exact IH].
Qed.

(** ** Atomicity of [save_and_close] *)

Lemma commit_raises c e c1 :
  commit c = (Raise e, c1) ->
  committed c1 = committed c /\ working c1 = working c.
Proof.
  unfold commit, bind, round_trip.
  destruct (outage c) as [[|n]|]; intros H; inversion H; subst; simpl; auto.
Qed.

Lemma recording_raises d now parts c e c1 :
  (record_parts d now parts ;; commit)%cur c = (Raise e, c1) ->
  committed c1 = committed c.
Proof.
  unfold bind at 1.
  pose proof (keeps_record_parts d now parts c) as Hkeep.
  destruct (record_parts d now parts c) as [[[]|e'] c2]; simpl in Hkeep; intros H.
  - apply commit_raises in H. destruct H as [H _]. congruence.
  - inversion H; subst. exact Hkeep.
Qed.

(** A failure on one item makes the whole recording fail. *)
Lemma record_parts_app d now done rest c :
  record_parts d now (done ++ rest) c
  = bind (record_parts d now done) (fun _ => record_parts d now rest) c.
Proof.
  revert c. induction done as [|part done IH]; intros c; simpl.
  - reflexivity.
  - unfold bind.
    destruct (record_part d now part c) as [[[]|e] c1]; [|reflexivity].
    rewrite IH. reflexivity.
Qed.

Lemma item_failure_fails_batch d now done part rest c ck e c1 :
  record_parts d now done c = (Ok tt, ck) ->
  record_part d now part ck = (Raise e, c1) ->
  (record_parts d now (done ++ part :: rest) ;; commit)%cur c = (Raise e, c1).
Proof.
  intros Hdone Hpart. unfold bind at 1. rewrite record_parts_app.
  unfold bind at 1. rewrite Hdone. simpl. unfold bind at 1. rewrite Hpart.
  reflexivity.
Qed.



(** ** What one recorded item does to the open transaction *)

Lemma bind_ok {A B} (m : Cur A) (k : A -> Cur B) c b c' :
  bind m k c = (Ok b, c') ->
  exists a c1, m c = (Ok a, c1) /\ k a c1 = (Ok b, c').
Proof.
  unfold bind. destruct (m c) as [[a|e] c1]; intros H.
  - exists a, c1. auto.
  - discriminate.
Qed.

Lemma round_trip_ok s c u c' :
  round_trip s c = (Ok u, c') ->
  working c' = working c /\ committed c' = committed c.
Proof.
  unfold round_trip.
  destruct (outage c) as [[|n]|]; intros H; inversion H; subst; auto.
Qed.

Lemma read_ok {A} (f : Database -> A) c a c' :
  read f c = (Ok a, c') -> a = f (working c) /\ c' = c.
Proof. unfold read. intros H. inversion H. auto. Qed.

Lemma with_working_ok f c u c' :
  with_working f c = (Ok u, c') ->
  working c' = f (working c) /\ committed c' = committed c.
Proof. unfold with_working. intros H. inversion H. auto. Qed.

Lemma references_inventory_ok part c u c' :
  references_inventory part c = (Ok u, c') ->
  is_Some (mro_inventory (working c) !! part) /\ c' = c.
Proof.
  unfold references_inventory. intros H.
  apply bind_ok in H. destruct H as (known & c1 & Hread & H).
  apply read_ok in Hread. destruct Hread as [-> ->].
  destruct (bool_decide _) eqn:Hk.
  - apply bool_decide_eq_true in Hk. unfold ret in H. inversion H; subst. auto.
  - discriminate.
Qed.

(** The three writes of one item. *)
Lemma record_part_ok d now part c u c' :
  record_part d now part c = (Ok u, c') ->
  is_Some (mro_inventory (working c) !! part_number part)
  /\ mro_inventory (working c')
     = alter (decrement (quantity part) now) (part_number part)
         (mro_inventory (working c))
  /\ (exists row,
        mro_stock_transactions (working c') = mro_stock_transactions (working c) ++ [row]
        /\ st_part_number row = part_number part
        /\ transaction_type row = "Issue"
        /\ st_quantity row = (- quantity part)%Q)
  /\ (exists row,
        cm_parts_used (working c') = cm_parts_used (working c) ++ [row]
        /\ pu_part_number row = part_number part
        /\ quantity_used row = quantity part)
  /\ committed c' = committed c.
Proof.
  unfold record_part. intros H.
  apply bind_ok in H. destruct H as (result & c1 & Hsel & H).
  unfold select_unit_price in Hsel.
  apply bind_ok in Hsel. destruct Hsel as ([] & c1' & Hrt1 & Hread).
  apply round_trip_ok in Hrt1. destruct Hrt1 as [Hw1 Hc1].
  apply read_ok in Hread. destruct Hread as [_ ->].
  apply bind_ok in H. destruct H as ([] & c2 & Hins1 & H).
  unfold insert_stock_transaction in Hins1.
  apply bind_ok in Hins1. destruct Hins1 as ([] & c2a & Hrt2 & Hins1).
  apply round_trip_ok in Hrt2. destruct Hrt2 as [Hw2 Hc2].
  apply bind_ok in Hins1. destruct Hins1 as ([] & c2b & Hfk1 & Hins1).
  apply references_inventory_ok in Hfk1. destruct Hfk1 as [Hsome ->].
  apply with_working_ok in Hins1. destruct Hins1 as [Hw2' Hc2'].
  apply bind_ok in H. destruct H as ([] & c3 & Hins2 & H).
  unfold insert_parts_used in Hins2.
  apply bind_ok in Hins2. destruct Hins2 as ([] & c3a & Hrt3 & Hins2).
  apply round_trip_ok in Hrt3. destruct Hrt3 as [Hw3 Hc3].
  apply bind_ok in Hins2. destruct Hins2 as ([] & c3b & Hfk2 & Hins2).
  apply references_inventory_ok in Hfk2. destruct Hfk2 as [_ ->].
  apply with_working_ok in Hins2. destruct Hins2 as [Hw3' Hc3'].
  unfold update_quantity in H.
  apply bind_ok in H. destruct H as ([] & c4 & Hrt4 & H).
  apply round_trip_ok in Hrt4. destruct Hrt4 as [Hw4 Hc4].
  apply with_working_ok in H. destruct H as [Hw5 Hc5].
  simpl in Hsome. rewrite Hw2, Hw1 in Hsome.
  rewrite Hw5, Hw4, Hw3', Hw3, Hw2', Hw2, Hw1. simpl.
  split; [exact Hsome|]. split; [reflexivity|].
  split; [eexists; repeat split; reflexivity|].
  split; [eexists; repeat split; reflexivity|].
  congruence.
Qed.

Lemma Qsum_app l1 l2 : (Num.Qsum (l1 ++ l2) == Num.Qsum l1 + Num.Qsum l2)%Q.
Proof.
  induction l1 as [|x l1 IH]; simpl.
  - ring.
  - rewrite IH. ring.
Qed.




Lemma commit_ok c u c' :
  commit c = (Ok u, c') ->
  committed c' = working c /\ working c' = working c.
Proof.
  unfold commit. intros H. apply bind_ok in H.
  destruct H as ([] & c1 & Hrt & H). apply round_trip_ok in Hrt.
  destruct Hrt as [Hw _]. inversion H; subst. simpl. auto.
Qed.







(** ** Invariants of the dialog *)

Lemma run_invariant (P : Dialog -> Prop) :
  (forall a d c, P d -> P (dispatch a d c).1.1) ->
  forall actions d c, P d -> P (run actions d c).1.1.
Proof.
  intros Hstep actions. induction actions as [|a rest IH]; intros d c Hd; simpl.
  - exact Hd.
  - specialize (Hstep a d c Hd).
    destruct (dispatch a d c) as [[d1 c1] evs1]. simpl in Hstep.
    specialize (IH d1 c1 Hstep).
    destruct (run rest d1 c1) as [[d2 c2] evs2]. exact IH.
Qed.

Lemma Qle_bool_false x y : Qle_bool x y = false -> (y < x)%Q.
Proof.
  intros H. apply Qnot_le_lt. intros Hle.
  apply Qle_bool_iff in Hle. congruence.
Qed.

Lemma existsb_part_number part_num parts :
  existsb (fun existing => (part_number existing =? part_num)%string) parts = true
  <-> part_num ∈ (part_number <$> parts).
Proof.
  rewrite existsb_exists, list_elem_of_fmap. split.
  - intros (x & Hin & Heq). apply String.eqb_eq in Heq.
    exists x. split; [congruence|]. apply list_elem_of_In. exact Hin.
  - intros (x & Heq & Hin). exists x. split.
    + apply list_elem_of_In. exact Hin.
    + apply String.eqb_eq. congruence.
Qed.

(** A click on "Add to Consumed List" changes nothing, or appends the
    selected row with a quantity that passed every check. *)
Lemma add_consumed_part_cases selected qty_text d :
  (add_consumed_part selected qty_text d).1 = d
  \/ exists item qty_used,
       (selected ≫= (fun i => parts_tree d !! i)) = Some item
       /\ qty_text = Some qty_used
       /\ (0 < qty_used)%Q
       /\ (0 < row_quantity item)%Q
       /\ (qty_used <= row_quantity item)%Q
       /\ (row_part_number item ∉ (part_number <$> consumed_parts d))
       /\ add_consumed_part selected qty_text d
          = (set_consumed_parts
               (consumed_parts d
                  ++ [{| part_number := row_part_number item;
                         description := row_name item;
                         quantity := qty_used |}]) d,
             [Show (AddedToConsumedList (row_part_number item))]).
Proof.
  unfold add_consumed_part.
  destruct (selected ≫= _) as [item|] eqn:Hsel; [|left; reflexivity].
  destruct qty_text as [qty_used|]; [|left; reflexivity].
  destruct (Qle_bool qty_used 0) eqn:Hpos; [left; reflexivity|].
  destruct (Qle_bool (row_quantity item) 0) eqn:Hstock; [left; reflexivity|].
  destruct (Qle_bool qty_used (row_quantity item)) eqn:Hle; [|left; reflexivity].
  simpl.
  destruct (existsb _ (consumed_parts d)) eqn:Hdup; [left; reflexivity|].
  right. exists item, qty_used.
  repeat split; auto using Qle_bool_false.
  - apply Qle_bool_iff. exact Hle.
  - intros Hin. apply existsb_part_number in Hin. congruence.
Qed.

Lemma dispatch_dialog_cases a d c :
  let d' := (dispatch a d c).1.1 in
  (consumed_parts d' = consumed_parts d
   /\ all_parts_data d' = all_parts_data d
   /\ (forall r, r ∈ parts_tree d' -> r ∈ parts_tree d \/ r ∈ all_parts_data d))
  \/ (exists selected qty_text,
        a = AddClicked selected qty_text /\ closed d = false
        /\ d' = (add_consumed_part selected qty_text d).1)
  \/ (exists selected,
        a = RemoveClicked selected /\ closed d = false
        /\ d' = (remove_consumed_part selected d).1).
Proof.
  unfold dispatch. destruct (closed d) eqn:Hclosed.
  { left. simpl. auto. }
  destruct a as [term|selected qty_text|selected|answer now|answer].
  - left. simpl. repeat split; auto.
    intros r Hr. right. apply list_elem_of_In in Hr.
    apply List.filter_In in Hr. apply list_elem_of_In. tauto.
  - right. left. exists selected, qty_text.
    destruct (add_consumed_part selected qty_text d). auto.
  - right. right. exists selected.
    destruct (remove_consumed_part selected d). auto.
  - left. unfold save_and_close.
    destruct (consumed_parts d) as [|p ps] eqn:Hparts.
    + destruct answer; simpl; auto.
    + destruct ((record_parts d now (p :: ps);; commit)%cur c) as [[[]|e] c1];
        simpl; auto.
  - left. unfold cancel_dialog.
    destruct (consumed_parts d) eqn:Hparts, answer; simpl; rewrite ?Hparts; auto.
Qed.

Lemma remove_consumed_part_filter selected d :
  (remove_consumed_part selected d).1 = d
  \/ exists keep,
       (remove_consumed_part selected d).1
       = set_consumed_parts (List.filter keep (consumed_parts d)) d.
Proof.
  unfold remove_consumed_part.
  destruct (selected ≫= _) as [item|]; [right|left; reflexivity].
  eexists. reflexivity.
Qed.

Lemma NoDup_fmap_filter {A B} (f : A -> B) keep (l : list A) :
  NoDup (f <$> l) -> NoDup (f <$> List.filter keep l).
Proof.
  induction l as [|x l IH]; simpl; [auto|].
  rewrite !NoDup_cons. intros [Hx Hl].
  destruct (keep x); simpl; [|auto].
  rewrite NoDup_cons. split; [|auto].
  intros Hin. apply Hx. apply list_elem_of_fmap in Hin.
  destruct Hin as (y & -> & Hy). apply list_elem_of_fmap. exists y.
  split; [reflexivity|]. apply list_elem_of_In in Hy.
  apply List.filter_In in Hy. apply list_elem_of_In. tauto.
Qed.

Lemma dispatch_no_duplicate_parts a d c :
  no_duplicate_parts d -> no_duplicate_parts (dispatch a d c).1.1.
Proof.
  unfold no_duplicate_parts. intros Hd.
  destruct (dispatch_dialog_cases a d c)
    as [(Hsame & _) | [(selected & qty_text & _ & _ & ->) | (selected & _ & _ & ->)]].
  - rewrite Hsame. exact Hd.
  - destruct (add_consumed_part_cases selected qty_text d)
      as [-> | (item & qty_used & _ & _ & _ & _ & _ & Hfresh & ->)]; [exact Hd|].
    simpl. rewrite fmap_app. apply NoDup_app. repeat split; auto.
    + intros x Hx Hx'. simpl in Hx'. apply list_elem_of_singleton in Hx'.
      subst x. contradiction.
    + simpl. apply NoDup_singleton.
  - destruct (remove_consumed_part_filter selected d) as [-> | (keep & ->)];
      [exact Hd|].
    simpl. apply NoDup_fmap_filter. exact Hd.
Qed.

Lemma open_dialog_no_duplicate_parts cm technician has_callback c :
  no_duplicate_parts (open_dialog cm technician has_callback c).1.1.
Proof.
  unfold open_dialog, load_parts_data, no_duplicate_parts.
  destruct (select_active_parts c) as [[rows|e] c1]; simpl; apply NoDup_nil_2.
Qed.

Lemma dialog_after_no_duplicate_parts cm technician has_callback c_open actions :
  no_duplicate_parts (dialog_after cm technician has_callback c_open actions).1.
Proof.
  unfold dialog_after.
  pose proof (open_dialog_no_duplicate_parts cm technician has_callback c_open) as H.
  destruct (open_dialog cm technician has_callback c_open) as [[d c] evs].
  simpl in H. apply (run_invariant no_duplicate_parts); [|exact H].
  intros a d0 c0. apply dispatch_no_duplicate_parts.
Qed.



(** ** The checks are made on the list read when the dialog opens *)









Lemma Qle_bool_lt x y : (y < x)%Q -> Qle_bool x y = false.
Proof.
  intros Hlt. destruct (Qle_bool x y) eqn:E; [|reflexivity].
  apply Qle_bool_iff in E. exfalso. exact (Qlt_not_le _ _ Hlt E).
Qed.



(** ** Stock below zero *)

Lemma record_part_keeps_stock d now part c u c' :
  record_part d now part c = (Ok u, c') ->
  preconditions_hold (working c) part ->
  stock_nonnegative (working c) ->
  stock_nonnegative (working c')
  /\ forall other,
       part_number other <> part_number part ->
       preconditions_hold (working c) other ->
       preconditions_hold (working c') other.
Proof.
  intros Hrec (item & Hitem & _ & _ & _ & Hle) Hstock.
  apply record_part_ok in Hrec. destruct Hrec as (_ & Hinventory & _).
  split.
  - intros p item' Hlook. rewrite Hinventory in Hlook.
    destruct (decide (part_number part = p)) as [Heq|Hne].
    + subst p. rewrite lookup_alter_eq, Hitem in Hlook. simpl in Hlook.
      inversion Hlook; subst item'. simpl.
      pose proof (Hstock _ _ Hitem). lra.
    + rewrite lookup_alter_ne in Hlook by exact Hne. exact (Hstock _ _ Hlook).
  - intros other Hne (stocked & Hlook & Hrest). exists stocked.
    rewrite Hinventory, lookup_alter_ne by congruence. auto.
Qed.

Lemma record_parts_keeps_stock d now parts c u c' :
  record_parts d now parts c = (Ok u, c') ->
  NoDup (part_number <$> parts) ->
  Forall (preconditions_hold (working c)) parts ->
  stock_nonnegative (working c) ->
  stock_nonnegative (working c').
Proof.
  revert c. induction parts as [|part rest IH]; intros c; simpl.
  - intros H. inversion H; subst. auto.
  - intros H Hnodup Hpre Hstock.
    apply bind_ok in H. destruct H as ([] & c1 & Hpart & Hrest).
    apply NoDup_cons in Hnodup. destruct Hnodup as [Hfresh Hnodup].
    apply Forall_cons in Hpre. destruct Hpre as [Hpart_ok Hrest_ok].
    destruct (record_part_keeps_stock d now part c tt c1 Hpart Hpart_ok Hstock)
      as [Hstock1 Hothers].
    apply (IH c1 Hrest Hnodup); [|exact Hstock1].
    rewrite Forall_forall in Hrest_ok. apply Forall_forall.
    intros other Hin. apply Hothers; [|exact (Hrest_ok _ Hin)].
    intros Heq. apply Hfresh. rewrite <- Heq.
    apply list_elem_of_fmap. exists other. auto.
Qed.

(** Where the code does keep the stock from going negative: a save whose
    items meet the preconditions in the inventory as it is when the save
    starts, as they do when nothing has changed it since the dialog was
    opened. *)
Lemma save_from_current_list_keeps_stock answer now d c :
  working c = committed c ->
  stock_nonnegative (committed c) ->
  no_duplicate_parts d ->
  Forall (preconditions_hold (working c)) (consumed_parts d) ->
  stock_nonnegative (committed (save_and_close answer now d c).1.2).
Proof.
  intros Hclean Hstock Hnodup Hpre. unfold save_and_close.
  destruct (consumed_parts d) as [|p ps] eqn:Hparts.
  - destruct answer; simpl; exact Hstock.
  - destruct ((record_parts d now (p :: ps);; commit)%cur c) as [[[]|e] c1] eqn:Hrun;
      simpl.
    + apply bind_ok in Hrun. destruct Hrun as ([] & c2 & Hrec & Hcommit).
      apply commit_ok in Hcommit. destruct Hcommit as [-> _].
      apply (record_parts_keeps_stock d now (p :: ps) c tt c2 Hrec).
      * unfold no_duplicate_parts in Hnodup. rewrite Hparts in Hnodup. exact Hnodup.
      * exact Hpre.
      * rewrite Hclean. exact Hstock.
    + apply recording_raises in Hrun. rewrite Hrun. exact Hstock.
Qed.

(** C1 fails on the code.  Two dialogs are opened while ten bearings are in
    stock, seven are entered in each, and both are saved: each save is
    accepted and reported as a success, no "out of stock" or "insufficient
    stock" message is shown, and the committed quantity ends at minus four.
    The stock checks of [add_consumed_part] compare with the list read when
    the dialog was opened, and [save_and_close] does not repeat them. *)
Theorem stale_check_drives_stock_negative :
  let '(events_A, events_B, c) := Sample.two_technicians in
  events_A = [Show (AddedToConsumedList "BRG-100");
              Show (Recorded 1 "CM-001"); Accept; Callback true]
  /\ events_B = [Show (AddedToConsumedList "BRG-100");
                 Show (Recorded 1 "CM-002"); Accept; Callback true]
  /\ exists item,
       mro_inventory (committed c) !! "BRG-100" = Some item
       /\ (quantity_in_stock item == -4 # 1)%Q
       /\ (quantity_in_stock item < 0)%Q.
Proof.
  vm_compute. split; [reflexivity|]. split; [reflexivity|].
  eexists. split; [reflexivity|]. split; reflexivity.
Qed.

(** ** The empty list *)

(** Against C6 as stated.  With nothing entered, a save answered with "No"
    returns without calling the callback. *)
Lemma declined_empty_save_is_silent : ~ empty_batch_always_succeeds.
Proof.
  intros Hclaim.
  destruct (Hclaim No 0 Sample.nothing_entered (connect Sample.ten_bearings))
    as [_ Hcall]; try reflexivity.
  vm_compute in Hcall. destruct Hcall as [Hcall|[]]. discriminate.
Qed.

(** C6, as the code has it.  With an empty list, [save_and_close] first asks
    whether to continue without parts.  Either way no statement is sent and
    the connection is untouched, nothing is rolled back and no error is
    shown.  On "Yes" the dialog is accepted and the callback, when one was
    given, receives [True]; on "No" the dialog stays as it is and the
    callback is not called. *)
Theorem empty_batch_asks_first answer now d c :
  consumed_parts d = [] ->
  let '(d', c', events) := save_and_close answer now d c in
  c' = c
  /\ ~ In Rollback events
  /\ (forall e, ~ In (Show (RecordFailed e)) events)
  /\ match answer with
     | Yes =>
         d' = close d
         /\ events = [Show ContinueWithoutParts; Accept] ++ call_back d true
         /\ (callback d = true -> In (Callback true) events)
     | No =>
         d' = d
         /\ events = [Show ContinueWithoutParts]
     end.
Proof.
  intros Hempty. unfold save_and_close, call_back. rewrite Hempty.
  destruct answer; destruct (callback d); simpl;
    repeat split; try discriminate; try tauto;
    try (intros e; intuition discriminate);
    intuition discriminate.
Qed.

Lemma empty_batch_asks_first_witness :
  consumed_parts Sample.nothing_entered = []
  /\ let '(d', c', events) :=
       save_and_close Yes 0 Sample.nothing_entered (connect Sample.ten_bearings) in
     c' = connect Sample.ten_bearings
     /\ ~ In Rollback events
     /\ (forall e, ~ In (Show (RecordFailed e)) events)
     /\ (d' = close Sample.nothing_entered
         /\ events = [Show ContinueWithoutParts; Accept]
                       ++ call_back Sample.nothing_entered true
         /\ (callback Sample.nothing_entered = true -> In (Callback true) events)).
Proof.
  assert (H : consumed_parts Sample.nothing_entered = []) by (vm_compute; reflexivity).
  split; [exact H|].
  exact (empty_batch_asks_first Yes 0 Sample.nothing_entered
           (connect Sample.ten_bearings) H).
Defined.

(** ** Arithmetic of the health score *)

Lemma int_of_Q_floor q : (0 <= q)%Q -> Num.int_of_Q q = Qfloor q.
Proof.
  intros Hq. unfold Num.int_of_Q. destruct q as [a b]. simpl.
  apply Z.quot_div_nonneg; [|reflexivity].
  unfold Qle in Hq. simpl in Hq. lia.
Qed.

Lemma int_of_Q_comp p q : (0 <= p)%Q -> (p == q)%Q -> Num.int_of_Q p = Num.int_of_Q q.
Proof.
  intros Hp Heq. rewrite !int_of_Q_floor.
  - apply Qfloor_comp. exact Heq.
  - rewrite <- Heq. exact Hp.
  - exact Hp.
Qed.

Lemma inject_Z_nonneg z : 0 <= z -> (0 <= inject_Z z)%Q.
Proof. intros Hz. unfold Qle. simpl. lia. Qed.

Lemma int_of_Q_between (lo hi : Z) q :
  0 <= lo ->
  (inject_Z lo <= q)%Q -> (q <= inject_Z hi)%Q ->
  lo <= Num.int_of_Q q <= hi.
Proof.
  intros Hlo Hge Hle. rewrite int_of_Q_floor.
  - split.
    + rewrite <- (Qfloor_Z lo). apply Qfloor_resp_le. exact Hge.
    + rewrite <- (Qfloor_Z hi). apply Qfloor_resp_le. exact Hle.
  - apply Qle_trans with (inject_Z lo); [|exact Hge].
    apply inject_Z_nonneg. exact Hlo.
Qed.

Lemma inject_Z_sub a b : (inject_Z (a - b) == inject_Z a - inject_Z b)%Q.
Proof. unfold Qeq. simpl. lia. Qed.

Lemma Qmin_cases a b :
  (Qle_bool a b = true /\ Num.Qmin a b = a /\ (a <= b)%Q)
  \/ (Qle_bool a b = false /\ Num.Qmin a b = b /\ (b < a)%Q).
Proof.
  unfold Num.Qmin. destruct (Qle_bool a b) eqn:E.
  - left. apply Qle_bool_iff in E. auto.
  - right. apply Qle_bool_false in E. auto.
Qed.

Lemma Qmax_cases a b :
  (Num.Qmax a b = b /\ (a <= b)%Q) \/ (Num.Qmax a b = a /\ (b < a)%Q).
Proof.
  unfold Num.Qmax. destruct (Qle_bool a b) eqn:E.
  - left. apply Qle_bool_iff in E. auto.
  - right. apply Qle_bool_false in E. auto.
Qed.

(** The score before truncation lies between 20 and 100: the deductions are
    at most 30, 20 and 30, and none is negative. *)
Lemma score_of_between pm_compliance cm_frequency status :
  0 <= pm_compliance <= 100 ->
  (20 <= History.score_of pm_compliance cm_frequency status
   /\ History.score_of pm_compliance cm_frequency status <= 100)%Q.
Proof.
  intros [Hlo Hhi]. unfold History.score_of.
  assert (Hx0 : (0 <= inject_Z (100 - pm_compliance))%Q)
    by (apply inject_Z_nonneg; lia).
  assert (Hx1 : (inject_Z (100 - pm_compliance) <= 100)%Q)
    by (change 100%Q with (inject_Z 100); rewrite <- Zle_Qle; lia).
  set (x := inject_Z (100 - pm_compliance)) in *.
  destruct (Qle_bool cm_frequency 1) eqn:Hf; simpl;
    destruct ((status =? "Active")%string); simpl.
  - lra.
  - lra.
  - apply Qle_bool_false in Hf.
    destruct (Qmin_cases 20 ((cm_frequency - 1) * 10)) as [(_ & -> & H)|(_ & -> & H)]; lra.
  - apply Qle_bool_false in Hf.
    destruct (Qmin_cases 20 ((cm_frequency - 1) * 10)) as [(_ & -> & H)|(_ & -> & H)]; lra.
Qed.

Lemma health_score_of_between pm_compliance cm_frequency status :
  0 <= pm_compliance <= 100 ->
  20 <= History.health_score_of pm_compliance cm_frequency status <= 100.
Proof.
  intros Hpc. unfold History.health_score_of.
  destruct (score_of_between pm_compliance cm_frequency status Hpc) as [Hlo Hhi].
  pose proof (int_of_Q_between 20 100 _ ltac:(lia) Hlo Hhi). lia.
Qed.

Lemma ratio_nonneg completed expected :
  0 <= completed -> 0 <= expected ->
  (0 <= inject_Z completed / inject_Z expected * 100)%Q.
Proof.
  intros Hc He. apply Qmult_le_0_compat; [|discriminate].
  apply Qmult_le_0_compat.
  - apply inject_Z_nonneg. exact Hc.
  - apply Qinv_le_0_compat. apply inject_Z_nonneg. exact He.
Qed.

Lemma pm_compliance_of_between completed expected :
  0 <= completed -> 0 <= expected ->
  0 <= History.pm_compliance_of completed expected <= 100.
Proof.
  intros Hc He. unfold History.pm_compliance_of.
  destruct (0 <? expected); [|lia].
  pose proof (ratio_nonneg completed expected Hc He) as Hq.
  rewrite int_of_Q_floor by exact Hq.
  assert (0 <= Qfloor (inject_Z completed / inject_Z expected * 100)).
  { rewrite <- (Qfloor_Z 0). apply Qfloor_resp_le. exact Hq. }
  lia.
Qed.

(** The compliance the code computes is the one of the specification,
    truncated. *)
Lemma pm_compliance_of_truncates completed expected :
  0 <= completed -> 0 <= expected ->
  History.pm_compliance_of completed expected
  = Num.int_of_Q (Spec.pm_compliance completed expected).
Proof.
  intros Hc He. unfold History.pm_compliance_of, Spec.pm_compliance.
  destruct (Z.eqb_spec expected 0) as [->|Hne]; [reflexivity|].
  assert (Hpos : (0 <? expected) = true) by (apply Z.ltb_lt; lia).
  rewrite Hpos.
  pose proof (ratio_nonneg completed expected Hc He) as Hq.
  set (q := (inject_Z completed / inject_Z expected * 100)%Q) in *.
  destruct (Qmin_cases 100 q) as [(_ & -> & H)|(_ & -> & H)].
  - change (Num.int_of_Q 100) with 100.
    assert (100 <= Num.int_of_Q q).
    { rewrite int_of_Q_floor by exact Hq.
      rewrite <- (Qfloor_Z 100). apply Qfloor_resp_le. exact H. }
    lia.
  - assert (Num.int_of_Q q <= 100).
    { rewrite int_of_Q_floor by exact Hq.
      rewrite <- (Qfloor_Z 100). apply Qfloor_resp_le. apply Qlt_le_weak. exact H. }
    lia.
Qed.

(** With the compliance an integer between 0 and 100, the code computes the
    score of the specification. *)
Lemma health_score_of_spec pm_compliance cm_frequency status :
  0 <= pm_compliance <= 100 ->
  History.health_score_of pm_compliance cm_frequency status
  = Spec.health_score (inject_Z pm_compliance) cm_frequency status.
Proof.
  intros Hpc.
  destruct (score_of_between pm_compliance cm_frequency status Hpc) as [Hlo Hhi].
  unfold History.health_score_of, Spec.health_score.
  assert (Hsame :
    (History.score_of pm_compliance cm_frequency status
     == (let score := 100 in
         let score := score - (100 - inject_Z pm_compliance) * (3 # 10) in
         let score :=
           if negb (Qle_bool cm_frequency 1)
           then score - Num.Qmin 20 ((cm_frequency - 1) * 10) else score in
         let score :=
           if negb (status =? "Active")%string then score - 30 else score in
         score))%Q).
  { unfold History.score_of. cbv zeta.
    pose proof (inject_Z_sub 100 pm_compliance) as E.
    change (inject_Z 100) with 100%Q in E.
    destruct (negb (Qle_bool cm_frequency 1)), (negb (status =? "Active")%string);
      rewrite E; reflexivity. }
  cbv zeta in Hsame.
  set (s := History.score_of pm_compliance cm_frequency status) in *.
  match type of Hsame with (_ == ?t)%Q => set (s' := t) in * end.
  assert (Hs0 : (0 <= s)%Q) by lra.
  assert (Hclamp : (s == Num.Qmax 0 (Num.Qmin 100 s'))%Q).
  { destruct (Qmin_cases 100 s') as [(_ & -> & H)|(_ & -> & H)];
      [destruct (Qmax_cases 0 100) as [[-> H']|[-> H']]
      |destruct (Qmax_cases 0 s') as [[-> H']|[-> H']]]; lra. }
  rewrite <- (int_of_Q_comp s _ Hs0 Hclamp).
  pose proof (int_of_Q_between 20 100 s ltac:(lia) Hlo Hhi). lia.
Qed.

(** Against the general formula of C7 read with the compliance not
    truncated: monthly and annual PM (13 expected), 7 completed, no
    corrective work, status Active.  The code computes compliance 53 and
    score 85; with compliance 700/13 the score would be 86. *)
Lemma untruncated_compliance_differs : ~ Spec.health_score_untruncated.
Proof.
  intros Hclaim.
  specialize (Hclaim 7 13 0%Q "Active" ltac:(lia) ltac:(lia)).
  vm_compute in Hclaim. discriminate.
Qed.

(** On the grid, binary64 arithmetic and exact arithmetic give the same
    compliance, frequency, score and recommendation on frequency. *)
Lemma binary64_agrees : Binary64.agrees_on_grid = true.
Proof. vm_compute. reflexivity. Qed.

(** ** What [get_equipment_health_score] returns *)

Lemma query_ok {A} s (f : Database -> A) c a c' :
  (round_trip s ;; read f)%cur c = (Ok a, c') ->
  a = f (working c)
  /\ working c' = working c
  /\ committed c' = committed c
  /\ log c' = log c ++ [s].
Proof.
  unfold bind, round_trip, read.
  destruct (outage c) as [[|n]|]; intros H; inversion H; subst; simpl; auto.
Qed.

Lemma query_runs {A} s (f : Database -> A) c :
  outage c = None ->
  exists c',
    (round_trip s ;; read f)%cur c = (Ok (f (working c)), c')
    /\ outage c' = None /\ working c' = working c.
Proof.
  intros Hup. unfold bind, round_trip, read. rewrite Hup.
  eexists. split; [reflexivity|]. auto.
Qed.

(** The metrics of an equipment that exists, in terms of what the database
    holds when the call starts. *)
Lemma health_score_body_ok bfm_no now c equip_row m c' :
  equipment (working c) !! bfm_no = Some equip_row ->
  History.health_score_body bfm_no now c = (Ok m, c') ->
  let pc := History.pm_compliance_of
              (Window.completed_pms (working c) bfm_no now)
              (History.expected_pms_of equip_row) in
  let f := History.cm_frequency_of (Window.cm_count (working c) bfm_no now) in
  let requests := Window.parts_requests (working c) bfm_no now in
  History.pm_compliance m = pc
  /\ History.cm_frequency m = f
  /\ History.status m = eq_status equip_row
  /\ History.health_score m = History.health_score_of pc f (eq_status equip_row)
  /\ History.parts_count m = Some requests
  /\ History.recommendations m
     = History.recommendations_of pc f requests (eq_status equip_row).
Proof.
  intros Hrow Hrun. unfold History.health_score_body in Hrun.
  apply bind_ok in Hrun. destruct Hrun as (row & c1 & Hq & Hrun).
  apply query_ok in Hq. destruct Hq as (-> & Hw1 & _). rewrite Hrow in Hrun.
  apply bind_ok in Hrun. destruct Hrun as (completed & c2 & Hq & Hrun).
  apply query_ok in Hq. destruct Hq as (-> & Hw2 & _).
  apply bind_ok in Hrun. destruct Hrun as (cms & c3 & Hq & Hrun).
  apply query_ok in Hq. destruct Hq as (-> & Hw3 & _).
  apply bind_ok in Hrun. destruct Hrun as (pm_hours & c4 & Hq & Hrun).
  apply query_ok in Hq. destruct Hq as (-> & Hw4 & _).
  apply bind_ok in Hrun. destruct Hrun as (cm_hours & c5 & Hq & Hrun).
  apply query_ok in Hq. destruct Hq as (-> & Hw5 & _).
  apply bind_ok in Hrun. destruct Hrun as (requests & c6 & Hq & Hrun).
  apply query_ok in Hq. destruct Hq as (-> & Hw6 & _).
  apply bind_ok in Hrun. destruct Hrun as ([] & c7 & _ & Hrun).
  unfold ret in Hrun. inversion Hrun; subst m c7.
  cbn [History.pm_compliance History.cm_frequency History.status
       History.health_score History.parts_count History.recommendations].
  rewrite ?Hw5, ?Hw4, ?Hw3, ?Hw2, ?Hw1.
  unfold Window.completed_pms, Window.cm_count, Window.parts_requests, Window.since.
  repeat split; reflexivity.
Qed.

Lemma get_equipment_health_score_ok bfm_no now c m c' :
  History.get_equipment_health_score bfm_no now c = (Ok m, c') ->
  exists c1, History.health_score_body bfm_no now c = (Ok m, c1).
Proof.
  unfold History.get_equipment_health_score, History.or_rollback.
  destruct (History.health_score_body bfm_no now c) as [[m0|e] c1]; intros H.
  - inversion H; subst. eauto.
  - discriminate.
Qed.

Lemma bind_runs {A B} (m : Cur A) (k : A -> Cur B) c a c1 :
  m c = (Ok a, c1) -> bind m k c = k a c1.
Proof. intros H. unfold bind. rewrite H. reflexivity. Qed.

Lemma commit_runs c :
  outage c = None -> exists c', commit c = (Ok tt, c') /\ outage c' = None.
Proof.
  intros Hup. unfold commit, bind, round_trip. rewrite Hup.
  eexists. split; reflexivity.
Qed.

Ltac run_query Hup :=
  match goal with
  | |- context [bind (bind (round_trip ?s) (fun _ => read ?f)) ?k ?c] =>
      let c1 := fresh "c" in
      let Hq := fresh "Hq" in
      let Hup1 := fresh "Hup" in
      destruct (query_runs s f c Hup) as (c1 & Hq & Hup1 & _);
      rewrite (bind_runs _ k c _ c1 Hq); clear Hq
  end.

(** With the server in reach the call returns. *)
Lemma get_equipment_health_score_runs bfm_no now c :
  outage c = None ->
  exists m c', History.get_equipment_health_score bfm_no now c = (Ok m, c').
Proof.
  intros Hup.
  assert (Hbody : exists m c', History.health_score_body bfm_no now c = (Ok m, c')).
  { unfold History.health_score_body, History.select_equipment, History.count_pm,
      History.count_cm, History.sum_pm_hours, History.sum_cm_hours,
      History.count_parts_requests.
    run_query Hup.
    destruct (equipment (working c) !! bfm_no) as [equip_row|];
      [|eexists; eexists; reflexivity].
    run_query Hup0. run_query Hup1. run_query Hup2. run_query Hup3.
    run_query Hup4.
    destruct (commit_runs _ Hup5) as (c6 & Hcommit & _).
    rewrite (bind_runs _ _ _ _ _ Hcommit).
    eexists. eexists. reflexivity. }
  destruct Hbody as (m & c' & Hbody).
  unfold History.get_equipment_health_score, History.or_rollback.
  rewrite Hbody. eauto.
Qed.

Lemma expected_pms_nonneg equip_row : 0 <= History.expected_pms_of equip_row.
Proof.
  unfold History.expected_pms_of.
  destruct (monthly_pm equip_row =? "X")%string,
    (annual_pm equip_row =? "X")%string; lia.
Qed.

Lemma completed_pms_nonneg db bfm_no now : 0 <= Window.completed_pms db bfm_no now.
Proof. unfold Window.completed_pms. lia. Qed.

(** C9.  For an equipment that is in the [equipment] table, the call returns
    whenever the server is in reach, and the health score of every result is
    an integer from 20 to 100: the compliance lies between 0 and 100, so the
    first deduction is at most 30, the second at most 20 and the third 30 or
    nothing. *)
Theorem health_score_from_20_to_100 bfm_no now c equip_row :
  equipment (working c) !! bfm_no = Some equip_row ->
  (outage c = None ->
   exists m c', History.get_equipment_health_score bfm_no now c = (Ok m, c'))
  /\ (forall m c',
        History.get_equipment_health_score bfm_no now c = (Ok m, c') ->
        20 <= History.health_score m <= 100
        /\ 0 <= History.pm_compliance m <= 100).
Proof.
  intros Hrow. split.
  - apply get_equipment_health_score_runs.
  - intros m c' Hrun. apply get_equipment_health_score_ok in Hrun.
    destruct Hrun as (c1 & Hrun).
    destruct (health_score_body_ok bfm_no now c equip_row m c1 Hrow Hrun)
      as (Hpc & _ & _ & Hscore & _).
    pose proof (pm_compliance_of_between _ _
                  (completed_pms_nonneg (working c) bfm_no now)
                  (expected_pms_nonneg equip_row)) as Hbound.
    rewrite Hscore, Hpc. split; [|exact Hbound].
    apply health_score_of_between. exact Hbound.
Qed.

(** C10.  For an equipment that is not in the [equipment] table, and unless
    the first round trip fails, the call raises nothing and returns the
    initial metrics: scores and counts 0, status "Unknown", no
    recommendation.  The server has received the one [SELECT] on [equipment]
    and nothing after it, and the connection holds what it held. *)
Theorem unknown_equipment_gets_initial_metrics bfm_no now c :
  equipment (working c) !! bfm_no = None ->
  outage c <> Some 0%nat ->
  exists m c',
    History.get_equipment_health_score bfm_no now c = (Ok m, c')
    /\ History.health_score m = 0
    /\ History.pm_compliance m = 0
    /\ History.cm_frequency m = 0%Q
    /\ History.labor_hours m = 0%Q
    /\ History.status m = "Unknown"
    /\ History.recommendations m = []
    /\ log c' = log c ++ [SelectEquipment bfm_no]
    /\ working c' = working c
    /\ committed c' = committed c.
Proof.
  intros Hrow Hup.
  unfold History.get_equipment_health_score, History.or_rollback,
    History.health_score_body, History.select_equipment,
    bind, round_trip, read, ret.
  destruct (outage c) as [[|n]|]; [congruence| |]; simpl; rewrite Hrow;
    eexists; eexists; repeat split; reflexivity.
Qed.

(** C7, as the code has it.  For an equipment that exists, the compliance
    returned is the ratio formula of the specification truncated to an
    integer, [int(min(100, completed / expected * 100))], and 0 when nothing
    is expected; with that integer the health score is the one of the
    specification: 100 less (100 - compliance) * 0.3, less min(20, (frequency
    - 1) * 10) when the frequency exceeds 1, less 30 when the status is not
    Active, clamped to 0..100 and truncated.  With monthly PM only, nine
    completions, no corrective work, status Active and at most twenty parts
    requests: compliance 75, frequency 0, score 92 and the one recommendation
    on compliance. *)
Theorem health_score_truncates_compliance bfm_no now c equip_row m c' :
  equipment (working c) !! bfm_no = Some equip_row ->
  History.get_equipment_health_score bfm_no now c = (Ok m, c') ->
  let completed := Window.completed_pms (working c) bfm_no now in
  let expected := History.expected_pms_of equip_row in
  History.pm_compliance m = Num.int_of_Q (Spec.pm_compliance completed expected)
  /\ History.health_score m
     = Spec.health_score (inject_Z (History.pm_compliance m))
         (History.cm_frequency m) (History.status m)
  /\ (eq_status equip_row = "Active" ->
      monthly_pm equip_row = "X" ->
      annual_pm equip_row <> "X" ->
      completed = 9 ->
      Window.cm_count (working c) bfm_no now = 0 ->
      Window.parts_requests (working c) bfm_no now <= 20 ->
      History.pm_compliance m = 75
      /\ History.cm_frequency m = 0%Q
      /\ History.health_score m = 92
      /\ History.recommendations m
         = ["Improve PM compliance - currently below 80%"]).
Proof.
  intros Hrow Hrun completed expected.
  apply get_equipment_health_score_ok in Hrun. destruct Hrun as (c1 & Hrun).
  destruct (health_score_body_ok bfm_no now c equip_row m c1 Hrow Hrun)
    as (Hpc & Hf & Hstatus & Hscore & _ & Hrec).
  fold completed in Hpc, Hscore, Hrec. fold expected in Hpc, Hscore, Hrec.
  assert (Hc : 0 <= completed) by apply completed_pms_nonneg.
  assert (He : 0 <= expected) by apply expected_pms_nonneg.
  split; [|split].
  - rewrite Hpc. apply pm_compliance_of_truncates; assumption.
  - rewrite Hscore, Hpc, Hf, Hstatus. apply health_score_of_spec.
    apply pm_compliance_of_between; assumption.
  - intros Hactive Hmonthly Hannual Hnine Hcm Hrequests.
    assert (Hexp : expected = 12).
    { unfold expected, History.expected_pms_of. rewrite Hmonthly.
      apply String.eqb_neq in Hannual. rewrite Hannual. reflexivity. }
    rewrite Hpc, Hf, Hscore, Hrec, Hactive, Hcm, Hnine, Hexp.
    assert (H75 : History.pm_compliance_of 9 12 = 75) by (vm_compute; reflexivity).
    assert (H0 : History.cm_frequency_of 0 = 0%Q) by (vm_compute; reflexivity).
    rewrite H75, H0.
    split; [reflexivity|]. split; [reflexivity|].
    split; [vm_compute; reflexivity|].
    unfold History.recommendations_of.
    apply Z.ltb_ge in Hrequests. rewrite Hrequests. reflexivity.
Qed.

(** Scenario D on sample data. *)
Lemma health_score_truncates_compliance_witness :
  let c := connect Sample.scenario_D in
  let r := History.get_equipment_health_score "PUMP-7" Sample.today c in
  equipment (working c) !! "PUMP-7" = Some (Sample.pump "X" "")
  /\ r = (Ok Sample.metrics_D, r.2)
  /\ History.pm_compliance Sample.metrics_D = 75
  /\ History.cm_frequency Sample.metrics_D = 0%Q
  /\ History.health_score Sample.metrics_D = 92
  /\ History.recommendations Sample.metrics_D
     = ["Improve PM compliance - currently below 80%"].
Proof.
  intros c r.
  assert (Hrow : equipment (working c) !! "PUMP-7" = Some (Sample.pump "X" ""))
    by (vm_compute; reflexivity).
  assert (Hrun : r = (Ok Sample.metrics_D, r.2)) by (vm_compute; reflexivity).
  split; [exact Hrow|]. split; [exact Hrun|].
  destruct (health_score_truncates_compliance "PUMP-7" Sample.today c
              (Sample.pump "X" "") Sample.metrics_D r.2 Hrow Hrun)
    as (_ & _ & HD).
  apply HD.
  - reflexivity.
  - reflexivity.
  - discriminate.
  - vm_compute. reflexivity.
  - vm_compute. reflexivity.
  - vm_compute. discriminate.
Defined.

(** Seven completions of thirteen expected: the score is between 20 and
    100. *)
Lemma health_score_from_20_to_100_witness :
  let c := connect Sample.seven_of_thirteen in
  equipment (working c) !! "FAN-2" = Some (Sample.pump "X" "X")
  /\ (exists m c',
        History.get_equipment_health_score "FAN-2" Sample.today c = (Ok m, c')
        /\ History.health_score m = 85
        /\ 20 <= History.health_score m <= 100).
Proof.
  intros c.
  assert (Hrow : equipment (working c) !! "FAN-2" = Some (Sample.pump "X" "X"))
    by (vm_compute; reflexivity).
  split; [exact Hrow|].
  destruct (health_score_from_20_to_100 "FAN-2" Sample.today c _ Hrow)
    as [Hruns Hbound].
  destruct (Hruns eq_refl) as (m & c' & Hrun).
  exists m, c'. split; [exact Hrun|].
  split; [|exact (proj1 (Hbound m c' Hrun))].
  revert Hrun. vm_compute. intros H. inversion H. reflexivity.
Defined.

(** An equipment number that is not in the table. *)
Lemma unknown_equipment_gets_initial_metrics_witness :
  let c := connect Sample.scenario_D in
  equipment (working c) !! "NO-SUCH" = None
  /\ outage c <> Some 0%nat
  /\ exists m c',
       History.get_equipment_health_score "NO-SUCH" Sample.today c = (Ok m, c')
       /\ History.health_score m = 0
       /\ History.pm_compliance m = 0
       /\ History.cm_frequency m = 0%Q
       /\ History.labor_hours m = 0%Q
       /\ History.status m = "Unknown"
       /\ History.recommendations m = []
       /\ log c' = log c ++ [SelectEquipment "NO-SUCH"]
       /\ working c' = working c
       /\ committed c' = committed c.
Proof.
  intros c.
  assert (Hrow : equipment (working c) !! "NO-SUCH" = None) by (vm_compute; reflexivity).
  assert (Hup : outage c <> Some 0%nat) by discriminate.
  split; [exact Hrow|]. split; [exact Hup|].
  exact (unknown_equipment_gets_initial_metrics "NO-SUCH" Sample.today c Hrow Hup).
Defined.

(** ** Trends *)

Lemma fold_left_cons_length {A} (f : nat -> A) (l : list nat) (acc : list A) :
  length (fold_left (fun labels i => f i :: labels) l acc)
  = (length l + length acc)%nat.
Proof.
  revert acc. induction l as [|i l IH]; intros acc; simpl.
  - reflexivity.
  - rewrite IH. simpl. lia.
Qed.

(** As many labels as months asked for. *)
Lemma month_labels_length now months :
  length (History.month_labels now months) = Z.to_nat months.
Proof.
  unfold History.month_labels.
  rewrite (fold_left_cons_length
             (fun i => History.strftime_Ym
                         (Calendar.minus_days now (30 * Z.of_nat i)))).
  rewrite length_seq. simpl. lia.
Qed.

(** The end of a month bucket is the first day of the next month, in the
    next year after December. *)
Lemma month_end_rolls_over year mon :
  History.month_end_of year mon
  = if mon =? 12
    then {| Calendar.year := year + 1; Calendar.month := 1; Calendar.day := 1 |}
    else {| Calendar.year := year; Calendar.month := mon + 1; Calendar.day := 1 |}.
Proof. reflexivity. Qed.

(** C8 fails on the code.  On 31 March 2025 the three labels asked for are
    2025-01, 2025-03 and 2025-03: stepping back 30 days at a time lands on 1
    March and 30 January, so February is left out and March comes twice.  A
    PM completed on 10 February is in no bucket and one completed on 5 March
    is counted in two. *)
Theorem thirty_day_steps_skip_february :
  History.month_labels (Sample.on 2025 3 31) 3 = ["2025-01"; "2025-03"; "2025-03"]
  /\ exists trends c',
       History.get_maintenance_trends "PUMP-7" 3 (Sample.on 2025 3 31)
         (connect Sample.february_and_march) = (Ok trends, c')
       /\ History.months trends = ["2025-01"; "2025-03"; "2025-03"]
       /\ History.monthly_pm_counts trends = [0; 1; 1]
       /\ History.monthly_cm_counts trends = [0; 0; 0].
Proof.
  split; [vm_compute; reflexivity|].
  eexists. eexists. split; [vm_compute; reflexivity|].
  repeat split; reflexivity.
Qed.

(** * Further properties of the code *)

(** ** One recorded item, exactly *)

Lemma round_trip_exact s c :
  round_trip s c
  = match outage c with
    | Some O =>
        (Raise OperationalError,
         {| committed := committed c; working := working c;
            outage := None; log := log c |})
    | _ =>
        (Ok tt,
         {| committed := committed c; working := working c;
            outage := outage_after 1 (outage c); log := log c ++ [s] |})
    end.
Proof.
  unfold round_trip, outage_after.
  destruct (outage c) as [[|n]|]; simpl; rewrite ?Nat.sub_0_r; reflexivity.
Qed.

(** One item goes through exactly when its part is in the inventory and the
    server stays in reach for four round trips; the result is then fully
    determined. *)
Lemma record_part_exact d now part c :
  is_Some (mro_inventory (working c) !! part_number part) ->
  in_reach_for 4 c ->
  record_part d now part c
  = (Ok tt,
     {| committed := committed c;
        working := write_part d now (working c) part;
        outage := outage_after 4 (outage c);
        log := log c ++ statements_for d now (working c) part |}).
Proof.
  intros Hknown Hreach.
  unfold record_part, select_unit_price, insert_stock_transaction,
    insert_parts_used, update_quantity, references_inventory,
    bind, read, with_working, ret.
  rewrite !round_trip_exact. unfold in_reach_for in Hreach.
  destruct (outage c) as [[|[|[|[|n]]]]|]; try lia; simpl;
    repeat (rewrite bool_decide_eq_true_2 by exact Hknown; simpl);
    unfold write_part, usage_row, price_read, issue_row, statements_for,
      outage_after; simpl;
    rewrite <- ?app_assoc; simpl; rewrite ?Nat.sub_0_r; reflexivity.
Qed.

Lemma record_part_needs d now part c u c' :
  record_part d now part c = (Ok u, c') ->
  is_Some (mro_inventory (working c) !! part_number part) /\ in_reach_for 4 c.
Proof.
  intros Hrun. split.
  - apply record_part_ok in Hrun. tauto.
  - revert Hrun.
    unfold record_part, select_unit_price, insert_stock_transaction,
      insert_parts_used, update_quantity, references_inventory,
      bind, read, with_working, ret, raise, in_reach_for.
    rewrite !round_trip_exact.
    destruct (outage c) as [[|[|[|[|n]]]]|]; simpl; try (intros _; lia);
      try discriminate;
      repeat (match goal with
              | |- context [bool_decide ?P] => destruct (bool_decide P); simpl
              end);
      try discriminate; intros _; lia.
Qed.

Lemma write_part_keeps_parts d now db part p :
  is_Some (mro_inventory (write_part d now db part) !! p)
  <-> is_Some (mro_inventory db !! p).
Proof.
  unfold write_part. simpl.
  destruct (decide (part_number part = p)) as [Heq|Hne].
  - subst p. rewrite lookup_alter_eq.
    destruct (mro_inventory db !! part_number part); simpl;
      split; intros [x Hx]; try discriminate; eauto.
  - rewrite lookup_alter_ne by exact Hne. tauto.
Qed.

(** A list of items goes through when every part is in the inventory and
    the server stays in reach for four round trips per item. *)
Lemma record_parts_exact d now parts c :
  (forall part, part ∈ parts ->
     is_Some (mro_inventory (working c) !! part_number part)) ->
  in_reach_for (4 * length parts) c ->
  record_parts d now parts c
  = (Ok tt,
     {| committed := committed c;
        working := write_parts d now parts (working c);
        outage := outage_after (4 * length parts) (outage c);
        log := log c ++ batch_statements d now (working c) parts |}).
Proof.
  revert c. induction parts as [|part rest IH]; intros c Hknown Hreach.
  - simpl. unfold ret, outage_after. rewrite app_nil_r.
    destruct c as [cm w [n|] l]; simpl; rewrite ?Nat.sub_0_r; reflexivity.
  - cbn [record_parts]. unfold bind.
    rewrite record_part_exact.
    + rewrite IH.
      * cbn [committed working outage log write_parts fold_left batch_statements].
        f_equal. f_equal.
        -- unfold outage_after. destruct (outage c); simpl; f_equal.
           cbn [length]. lia.
        -- rewrite app_assoc. reflexivity.
      * cbn [working]. intros p Hp. apply write_part_keeps_parts.
        apply Hknown. apply list_elem_of_further. exact Hp.
      * unfold in_reach_for in *. cbn [outage length] in *.
        unfold outage_after. destruct (outage c); simpl; lia.
    + apply Hknown. apply list_elem_of_here.
    + unfold in_reach_for in *. cbn [length] in Hreach.
      destruct (outage c); lia.
Qed.

Lemma record_parts_needs d now parts c u c' :
  record_parts d now parts c = (Ok u, c') ->
  (forall part, part ∈ parts ->
     is_Some (mro_inventory (working c) !! part_number part))
  /\ in_reach_for (4 * length parts) c.
Proof.
  revert c. induction parts as [|part rest IH]; intros c Hrun.
  - split.
    + intros p Hp. inversion Hp.
    + unfold in_reach_for. simpl. destruct (outage c); lia.
  - cbn [record_parts] in Hrun. apply bind_ok in Hrun.
    destruct Hrun as ([] & c1 & Hpart & Hrest).
    destruct (record_part_needs _ _ _ _ _ _ Hpart) as [Hknown Hreach].
    rewrite (record_part_exact d now part c Hknown Hreach) in Hpart.
    inversion Hpart; subst c1; clear Hpart.
    destruct (IH _ Hrest) as [Hknown' Hreach']. cbn [working outage] in *.
    split.
    + intros p Hp. apply elem_of_cons in Hp. destruct Hp as [->|Hp].
      * exact Hknown.
      * apply (write_part_keeps_parts d now (working c) part). apply Hknown', Hp.
    + unfold in_reach_for, outage_after in *. cbn [outage length] in *.
      destruct (outage c); simpl in *; lia.
Qed.

Lemma commit_exact c :
  in_reach_for 1 c ->
  commit c
  = (Ok tt,
     {| committed := working c; working := working c;
        outage := outage_after 1 (outage c); log := log c ++ [Commit] |}).
Proof.
  intros Hreach. unfold commit, bind. rewrite round_trip_exact.
  unfold in_reach_for in Hreach.
  destruct (outage c) as [[|n]|]; try lia; reflexivity.
Qed.

Lemma commit_needs c u c' : commit c = (Ok u, c') -> in_reach_for 1 c.
Proof.
  unfold commit, bind, in_reach_for. rewrite round_trip_exact.
  destruct (outage c) as [[|n]|]; try discriminate; intros _; lia.
Qed.

(** ** What a list of items does to the tables *)

Lemma write_parts_ledger d now parts db :
  mro_stock_transactions (write_parts d now parts db)
  = mro_stock_transactions db ++ (issue_row d now <$> parts).
Proof.
  revert db. induction parts as [|part rest IH]; intros db; simpl.
  - rewrite app_nil_r. reflexivity.
  - unfold write_parts in *. simpl. rewrite IH. simpl.
    rewrite <- app_assoc. reflexivity.
Qed.

Lemma price_read_write_part d now db part other :
  price_read (write_part d now db part) other = price_read db other.
Proof.
  unfold price_read, write_part. simpl.
  destruct (decide (part_number part = part_number other)) as [Heq|Hne].
  - rewrite <- Heq, lookup_alter_eq.
    destruct (mro_inventory db !! part_number part); reflexivity.
  - rewrite lookup_alter_ne by exact Hne. reflexivity.
Qed.

Lemma usage_row_write_part d now db part other :
  usage_row d now (write_part d now db part) other = usage_row d now db other.
Proof. unfold usage_row. rewrite price_read_write_part. reflexivity. Qed.

Lemma write_parts_used d now parts db :
  cm_parts_used (write_parts d now parts db)
  = cm_parts_used db ++ (usage_row d now db <$> parts).
Proof.
  revert db. induction parts as [|part rest IH]; intros db; simpl.
  - rewrite app_nil_r. reflexivity.
  - unfold write_parts in *. simpl. rewrite IH. simpl.
    rewrite <- app_assoc. simpl. f_equal. f_equal.
    apply list_fmap_ext. intros i other _. apply usage_row_write_part.
Qed.

Lemma batch_statements_concat d now db parts :
  batch_statements d now db parts
  = concat (statements_for d now db <$> parts).
Proof.
  revert db. induction parts as [|part rest IH]; intros db; simpl.
  - reflexivity.
  - rewrite IH.
    assert (Hsame : statements_for d now (write_part d now db part) <$> rest
                    = statements_for d now db <$> rest).
    { apply list_fmap_ext. intros i other _.
      unfold statements_for. rewrite usage_row_write_part. reflexivity. }
    rewrite Hsame. reflexivity.
Qed.






(** An accepted save, in full. *)
Lemma save_and_close_exact answer now d c :
  consumed_parts d <> [] ->
  (forall part, part ∈ consumed_parts d ->
     is_Some (mro_inventory (working c) !! part_number part)) ->
  in_reach_for (4 * length (consumed_parts d) + 1) c ->
  save_and_close answer now d c
  = (close d,
     {| committed := write_parts d now (consumed_parts d) (working c);
        working := write_parts d now (consumed_parts d) (working c);
        outage := outage_after (4 * length (consumed_parts d) + 1) (outage c);
        log := log c
                 ++ concat (statements_for d now (working c) <$> consumed_parts d)
                 ++ [Commit] |},
     [Show (Recorded (length (consumed_parts d)) (cm_number d)); Accept]
       ++ call_back d true).
Proof.
  intros Hne Hknown Hreach. unfold save_and_close.
  destruct (consumed_parts d) as [|p ps] eqn:Hparts; [congruence|].
  unfold bind at 1. rewrite record_parts_exact.
  - rewrite commit_exact.
    + cbn [committed working outage log]. rewrite batch_statements_concat.
      f_equal. f_equal. f_equal.
      * unfold outage_after. destruct (outage c); simpl; f_equal. lia.
      * rewrite <- app_assoc. reflexivity.
    + unfold in_reach_for, outage_after in *. cbn [outage].
      destruct (outage c); cbn [fmap option_fmap option_map length] in *; lia.
  - exact Hknown.
  - unfold in_reach_for in *. destruct (outage c); lia.
Qed.

Lemma save_accepted_needs answer now d c :
  consumed_parts d <> [] ->
  In Accept (save_and_close answer now d c).2 ->
  (forall part, part ∈ consumed_parts d ->
     is_Some (mro_inventory (working c) !! part_number part))
  /\ in_reach_for (4 * length (consumed_parts d) + 1) c.
Proof.
  intros Hne. unfold save_and_close.
  destruct (consumed_parts d) as [|p ps] eqn:Hparts; [congruence|].
  destruct ((record_parts d now (p :: ps);; commit)%cur c) as [[[]|e] c1] eqn:Hrun.
  - intros _. apply bind_ok in Hrun. destruct Hrun as ([] & c2 & Hrec & Hcommit).
    destruct (record_parts_needs _ _ _ _ _ _ Hrec) as [Hknown Hreach].
    split; [exact Hknown|].
    rewrite (record_parts_exact d now (p :: ps) c Hknown Hreach) in Hrec.
    inversion Hrec; subst c2; clear Hrec.
    apply commit_needs in Hcommit.
    unfold in_reach_for, outage_after in *. cbn [outage] in *.
    destruct (outage c); cbn [fmap option_fmap option_map length] in *; lia.
  - unfold call_back. simpl. destruct (callback d); simpl; intros H;
      intuition discriminate.
Qed.



Lemma save_accepted_exact answer now d c :
  consumed_parts d <> [] ->
  In Accept (save_and_close answer now d c).2 ->
  (save_and_close answer now d c).1.2
  = {| committed := write_parts d now (consumed_parts d) (working c);
       working := write_parts d now (consumed_parts d) (working c);
       outage := outage_after (4 * length (consumed_parts d) + 1) (outage c);
       log := log c
                ++ concat (statements_for d now (working c) <$> consumed_parts d)
                ++ [Commit] |}.
Proof.
  intros Hne Haccept.
  destruct (save_accepted_needs answer now d c Hne Haccept) as [Hknown Hreach].
  rewrite (save_and_close_exact answer now d c Hne Hknown Hreach). reflexivity.
Qed.

(** X2.  An accepted save leaves, committed, one Issue row per pending item
    after the rows the ledger had, in the order of the list, and one usage
    row per item after the rows [cm_parts_used] had; the cost of a usage row
    is the unit price read at the save times the quantity.  No transaction
    stays open. *)
Theorem save_writes_one_row_per_item answer now d c :
  consumed_parts d <> [] ->
  In Accept (save_and_close answer now d c).2 ->
  let c' := (save_and_close answer now d c).1.2 in
  mro_stock_transactions (committed c')
  = mro_stock_transactions (working c) ++ (issue_row d now <$> consumed_parts d)
  /\ cm_parts_used (committed c')
     = cm_parts_used (working c)
         ++ (usage_row d now (working c) <$> consumed_parts d)
  /\ (forall row, row ∈ (usage_row d now (working c) <$> consumed_parts d) ->
        exists part,
          part ∈ consumed_parts d
          /\ quantity_used row = quantity part
          /\ total_cost row = (price_read (working c) part * quantity part)%Q)
  /\ working c' = committed c'.
Proof.
  intros Hne Haccept c'. unfold c'.
  rewrite (save_accepted_exact answer now d c Hne Haccept). cbn [committed working].
  split; [apply write_parts_ledger|]. split; [apply write_parts_used|].
  split; [|reflexivity].
  intros row Hrow. apply list_elem_of_fmap in Hrow.
  destruct Hrow as (part & -> & Hpart). exists part. auto.
Qed.

Lemma save_writes_one_row_per_item_witness :
  let d := Sample.three_entered.1 in
  let c := Sample.three_entered.2 in
  let c' := (save_and_close Yes 5 d c).1.2 in
  consumed_parts d <> []
  /\ In Accept (save_and_close Yes 5 d c).2
  /\ (st_quantity <$> mro_stock_transactions (committed c')) = [(- (3 # 1))%Q]
  /\ (total_cost <$> cm_parts_used (committed c')) = [((5 # 2) * (3 # 1))%Q].
Proof.
  intros d c c'.
  assert (Hne : consumed_parts d <> []) by (vm_compute; discriminate).
  assert (Haccept : In Accept (save_and_close Yes 5 d c).2) by (vm_compute; auto).
  split; [exact Hne|]. split; [exact Haccept|].
  destruct (save_writes_one_row_per_item Yes 5 d c Hne Haccept)
    as (Hledger & Hused & _).
  fold c' in Hledger, Hused. rewrite Hledger, Hused.
  split; vm_compute; reflexivity.
Defined.



(** X4.  An accepted save sends, for each pending item in turn, the [SELECT] of
    the unit price, the two [INSERT]s and the [UPDATE], then one commit, and
    nothing else: four statements per item and one. *)
Theorem save_sends_four_statements_per_item answer now d c :
  consumed_parts d <> [] ->
  In Accept (save_and_close answer now d c).2 ->
  let c' := (save_and_close answer now d c).1.2 in
  log c'
  = log c ++ concat (statements_for d now (working c) <$> consumed_parts d)
      ++ [Commit]
  /\ length (log c') = (length (log c) + 4 * length (consumed_parts d) + 1)%nat.
Proof.
  intros Hne Haccept c'. unfold c'.
  rewrite (save_accepted_exact answer now d c Hne Haccept). cbn [log].
  split; [reflexivity|].
  rewrite !length_app. cbn [length].
  assert (Hlen : forall parts : list ConsumedPart,
             length (concat (statements_for d now (working c) <$> parts))
             = (4 * length parts)%nat).
  { induction parts as [|p ps IH]; [reflexivity|].
    cbn [fmap list_fmap concat length]. rewrite length_app, IH.
    cbn [statements_for length]. lia. }
  rewrite Hlen. lia.
Qed.

Lemma save_sends_four_statements_per_item_witness :
  let d := Sample.two_parts_entered in
  let c := connect (Sample.stock {[ "BRG-100" := Sample.bearing 10;
                                    "SEAL-9" := Sample.seal ]}) in
  let c' := (save_and_close Yes 5 d c).1.2 in
  consumed_parts d <> []
  /\ In Accept (save_and_close Yes 5 d c).2
  /\ length (log c') = 9%nat.
Proof.
  intros d c c'.
  assert (Hne : consumed_parts d <> []) by (vm_compute; discriminate).
  assert (Haccept : In Accept (save_and_close Yes 5 d c).2) by (vm_compute; auto).
  split; [exact Hne|]. split; [exact Haccept|].
  destruct (save_sends_four_statements_per_item Yes 5 d c Hne Haccept) as [_ Hlen].
  fold c' in Hlen. rewrite Hlen. vm_compute. reflexivity.
Defined.

(** ** A part that has left the inventory *)

Lemma record_part_missing d now part c :
  outage c = None ->
  mro_inventory (working c) !! part_number part = None ->
  exists c1, record_part d now part c = (Raise ForeignKeyViolation, c1).
Proof.
  intros Hup Hgone.
  unfold record_part, select_unit_price, insert_stock_transaction,
    references_inventory, bind, read, with_working, ret, raise.
  rewrite !round_trip_exact. rewrite Hup. simpl.
  rewrite bool_decide_eq_false_2.
  - eexists. reflexivity.
  - rewrite Hgone. intros [x Hx]. discriminate.
Qed.

Lemma first_missing_part db (parts : list ConsumedPart) part :
  part ∈ parts ->
  mro_inventory db !! part_number part = None ->
  exists done missing rest,
    parts = done ++ missing :: rest
    /\ mro_inventory db !! part_number missing = None
    /\ forall p, p ∈ done -> is_Some (mro_inventory db !! part_number p).
Proof.
  induction parts as [|p ps IH]; intros Hin Hgone.
  - inversion Hin.
  - destruct (mro_inventory db !! part_number p) as [item|] eqn:Hp.
    + apply elem_of_cons in Hin. destruct Hin as [->|Hin]; [congruence|].
      destruct (IH Hin Hgone) as (done & missing & rest & -> & Hmiss & Hdone).
      exists (p :: done), missing, rest. split; [reflexivity|].
      split; [exact Hmiss|]. intros q Hq. apply elem_of_cons in Hq.
      destruct Hq as [->|Hq]; [rewrite Hp; eauto | auto].
    + exists [], p, ps. split; [reflexivity|]. split; [exact Hp|].
      intros q Hq. inversion Hq.
Qed.

Lemma write_parts_keeps_parts d now parts db p :
  is_Some (mro_inventory (write_parts d now parts db) !! p)
  <-> is_Some (mro_inventory db !! p).
Proof.
  revert db. induction parts as [|part rest IH]; intros db; [reflexivity|].
  unfold write_parts in *. cbn [fold_left]. rewrite IH.
  apply write_part_keeps_parts.
Qed.

(** X5.  When a pending part is no longer in [mro_inventory] and the server is in
    reach, the save fails on the foreign key of the first such part: the
    transaction is rolled back, the failure is shown, the callback receives
    [False], the dialog stays open with its list, and nothing is written. *)
Theorem save_fails_on_missing_part answer now d c part :
  part ∈ consumed_parts d ->
  mro_inventory (working c) !! part_number part = None ->
  outage c = None ->
  let '(d', c', events) := save_and_close answer now d c in
  d' = d
  /\ events = [Rollback; Show (RecordFailed ForeignKeyViolation)]
                ++ call_back d false
  /\ committed c' = committed c
  /\ working c' = committed c.
Proof.
  intros Hin Hgone Hup.
  destruct (first_missing_part (working c) (consumed_parts d) part Hin Hgone)
    as (done & missing & rest & Hparts & Hmiss & Hdone).
  assert (Hreach : in_reach_for (4 * length done) c)
    by (unfold in_reach_for; rewrite Hup; exact I).
  pose proof (record_parts_exact d now done c Hdone Hreach) as Hrun.
  set (c2 := {| committed := committed c;
                working := write_parts d now done (working c);
                outage := outage_after (4 * length done) (outage c);
                log := log c ++ batch_statements d now (working c) done |}) in *.
  assert (Hup2 : outage c2 = None) by (cbn [c2 outage]; rewrite Hup; reflexivity).
  assert (Hmiss2 : mro_inventory (working c2) !! part_number missing = None).
  { cbn [c2 working].
    destruct (mro_inventory (write_parts d now done (working c))
                !! part_number missing) as [item|] eqn:E; [|reflexivity].
    exfalso.
    assert (Hsome : is_Some (mro_inventory (working c) !! part_number missing)).
    { apply (write_parts_keeps_parts d now done). rewrite E. eauto. }
    rewrite Hmiss in Hsome. destruct Hsome as [x Hx]. discriminate. }
  destruct (record_part_missing d now missing c2 Hup2 Hmiss2) as (c1 & Hfail).
  pose proof (item_failure_fails_batch d now done missing rest c _ _ c1 Hrun Hfail)
    as Hbatch.
  rewrite <- Hparts in Hbatch.
  assert (Hne : consumed_parts d <> [])
    by (rewrite Hparts; destruct done; discriminate).
  pose proof (recording_raises _ _ _ _ _ _ Hbatch) as Hkeep.
  unfold save_and_close.
  destruct (consumed_parts d) as [|p ps] eqn:Hlist; [congruence|].
  rewrite Hbatch. simpl. auto.
Qed.

Lemma save_fails_on_missing_part_witness :
  let d := Sample.two_parts_entered in
  let c := connect Sample.ten_bearings in
  let seal := {| part_number := "SEAL-9"; description := "Shaft seal";
                 quantity := 1 |} in
  seal ∈ consumed_parts d
  /\ mro_inventory (working c) !! part_number seal = None
  /\ outage c = None
  /\ let '(d', c', events) := save_and_close Yes 5 d c in
     d' = d
     /\ events = [Rollback; Show (RecordFailed ForeignKeyViolation)]
                   ++ call_back d false
     /\ committed c' = committed c
     /\ working c' = committed c.
Proof.
  intros d c seal.
  assert (Hin : seal ∈ consumed_parts d)
    by (vm_compute; apply list_elem_of_further, list_elem_of_here).
  assert (Hgone : mro_inventory (working c) !! part_number seal = None)
    by (vm_compute; reflexivity).
  assert (Hup : outage c = None) by reflexivity.
  split; [exact Hin|]. split; [exact Hgone|]. split; [exact Hup|].
  exact (save_fails_on_missing_part Yes 5 d c seal Hin Hgone Hup).
Defined.

(** ** The list of the dialog *)

Lemma filter_other_parts_delete (l : list ConsumedPart) i item :
  NoDup (part_number <$> l) ->
  l !! i = Some item ->
  List.filter (fun p => negb (part_number p =? part_number item)%string) l
  = delete i l.
Proof.
  revert i. induction l as [|p l IH]; intros i Hnodup Hi; [discriminate|].
  simpl in Hnodup. apply NoDup_cons in Hnodup. destruct Hnodup as [Hfresh Hnodup].
  destruct i as [|i]; simpl in Hi.
  - inversion Hi; subst p. simpl. rewrite String.eqb_refl. simpl.
    clear IH Hi. induction l as [|q l IHl]; [reflexivity|].
    simpl in *. apply NoDup_cons in Hnodup. destruct Hnodup as [_ Hnodup].
    destruct (part_number q =? part_number item)%string eqn:E.
    + apply String.eqb_eq in E. exfalso. apply Hfresh. rewrite E.
      apply list_elem_of_here.
    + simpl. f_equal. apply IHl; [|exact Hnodup].
      intros Hin. apply Hfresh. apply list_elem_of_further. exact Hin.
  - simpl. destruct (part_number p =? part_number item)%string eqn:E.
    + apply String.eqb_eq in E. exfalso. apply Hfresh. rewrite E.
      apply list_elem_of_fmap. exists item. split; [reflexivity|].
      eapply list_elem_of_lookup_2. exact Hi.
    + simpl. f_equal. apply IH; assumption.
Qed.

Lemma remove_selected d i item :
  no_duplicate_parts d ->
  consumed_parts d !! i = Some item ->
  remove_consumed_part (Some i) d
  = (set_consumed_parts (delete i (consumed_parts d)) d, []).
Proof.
  intros Hnodup Hi. unfold remove_consumed_part. simpl. rewrite Hi.
  rewrite <- (filter_other_parts_delete _ i item Hnodup Hi). reflexivity.
Qed.

(** X6.  "Remove Selected" takes out exactly the selected entry of the pending
    list and leaves the others in their order; with no row selected it only
    warns. *)
Theorem remove_takes_out_selected_entry d i item :
  no_duplicate_parts d ->
  consumed_parts d !! i = Some item ->
  remove_consumed_part (Some i) d = (set_consumed_parts (delete i (consumed_parts d)) d, [])
  /\ (part_number item ∉ (part_number <$> delete i (consumed_parts d)))
  /\ remove_consumed_part None d = (d, [Show SelectPartToRemove]).
Proof.
  intros Hnodup Hi.
  split; [exact (remove_selected d i item Hnodup Hi)|]. split; [|reflexivity].
  rewrite <- (filter_other_parts_delete _ i item Hnodup Hi).
  intros Hin. apply list_elem_of_fmap in Hin. destruct Hin as (q & Heq & Hq).
  apply list_elem_of_In in Hq. apply List.filter_In in Hq. destruct Hq as [_ Hq].
  rewrite Heq, String.eqb_refl in Hq. discriminate.
Qed.

Lemma remove_takes_out_selected_entry_witness :
  let d := Sample.two_parts_entered in
  let bearings := {| part_number := "BRG-100"; description := "Bearing 6204";
                     quantity := 3 |} in
  no_duplicate_parts d
  /\ consumed_parts d !! 0%nat = Some bearings
  /\ (part_number <$> consumed_parts (remove_consumed_part (Some 0%nat) d).1)
     = ["SEAL-9"].
Proof.
  intros d bearings.
  assert (Hnodup : no_duplicate_parts d)
    by (apply dialog_after_no_duplicate_parts).
  assert (Hi : consumed_parts d !! 0%nat = Some bearings) by (vm_compute; reflexivity).
  split; [exact Hnodup|]. split; [exact Hi|].
  destruct (remove_takes_out_selected_entry d 0%nat bearings Hnodup Hi) as (-> & _).
  vm_compute. reflexivity.
Defined.



(** X8.  Only a click on "Save and Complete" reaches the database: after any
    other actions the connection is what it was, down to the statements
    sent, the dialog has not been accepted and the callback has not received
    [True]. *)
Theorem only_save_reaches_database actions d c :
  forallb (fun a => negb (is_save a)) actions = true ->
  let '(d', c', events) := run actions d c in
  c' = c /\ ~ In Accept events /\ ~ In (Callback true) events.
Proof.
  revert d c. induction actions as [|a rest IH]; intros d c Hno; simpl.
  - auto.
  - simpl in Hno. apply andb_prop in Hno. destruct Hno as [Ha Hrest].
    assert (Hstep : (dispatch a d c).1.2 = c
                    /\ ~ In Accept (dispatch a d c).2
                    /\ ~ In (Callback true) (dispatch a d c).2).
    { unfold dispatch. destruct (closed d); [simpl; auto|].
      destruct a as [term|selected qty_text|selected|answer now|answer];
        try discriminate; simpl.
      - auto.
      - unfold add_consumed_part.
        destruct (selected ≫= _) as [item|]; [|simpl; intuition discriminate].
        destruct qty_text as [qty_used|]; [|simpl; intuition discriminate].
        destruct (Qle_bool qty_used 0); [simpl; intuition discriminate|].
        destruct (Qle_bool (row_quantity item) 0); [simpl; intuition discriminate|].
        destruct (negb (Qle_bool qty_used (row_quantity item)));
          [simpl; intuition discriminate|].
        destruct (existsb _ (consumed_parts d)); simpl; intuition discriminate.
      - unfold remove_consumed_part.
        destruct (selected ≫= _) as [item|]; simpl; intuition discriminate.
      - unfold cancel_dialog, call_back.
        destruct (consumed_parts d), answer, (callback d); simpl;
          intuition discriminate. }
    destruct (dispatch a d c) as [[d1 c1] evs1]. simpl in Hstep.
    destruct Hstep as (-> & Hacc1 & Hcb1).
    specialize (IH d1 c Hrest).
    destruct (run rest d1 c) as [[d2 c2] evs2].
    destruct IH as (-> & Hacc2 & Hcb2).
    split; [reflexivity|]. rewrite !in_app_iff. tauto.
Qed.

Lemma only_save_reaches_database_witness :
  let actions := [AddClicked (Some 0%nat) (Some 3%Q); SearchChanged "seal";
                  RemoveClicked (Some 0%nat); CancelClicked Yes] in
  let c := connect Sample.ten_bearings in
  forallb (fun a => negb (is_save a)) actions = true
  /\ let '(d', c', events) := run actions Sample.nothing_entered c in
     c' = c /\ ~ In Accept events /\ ~ In (Callback true) events.
Proof.
  intros actions c.
  assert (Hno : forallb (fun a => negb (is_save a)) actions = true) by reflexivity.
  split; [exact Hno|].
  exact (only_save_reaches_database actions Sample.nothing_entered c Hno).
Defined.

(** ** The search field *)




(** ** The list loaded when the dialog opens *)

Lemma active_parts_elem db r :
  r ∈ active_parts db
  <-> exists item,
        mro_inventory db !! row_part_number r = Some item
        /\ status item = "Active"
        /\ r = part_row (row_part_number r, item).
Proof.
  unfold active_parts. rewrite merge_sort_Permutation, list_elem_of_fmap. split.
  - intros ([k item] & -> & Hin).
    apply list_elem_of_filter in Hin. destruct Hin as [Hactive Hin].
    apply elem_of_map_to_list in Hin. exists item. simpl in *. auto.
  - intros (item & Hlook & Hactive & Hr).
    exists (row_part_number r, item). split; [exact Hr|].
    apply list_elem_of_filter. split; [exact Hactive|].
    apply elem_of_map_to_list. exact Hlook.
Qed.

Lemma by_part_number_total : Total by_part_number.
Proof.
  intros a b. unfold by_part_number.
  destruct (String.leb_total (row_part_number a) (row_part_number b)) as [H|H];
    rewrite H; simpl; auto.
Qed.

Lemma active_parts_sorted db : Sorted by_part_number (active_parts db).
Proof. apply Sorted_merge_sort. apply by_part_number_total. Qed.

Lemma active_parts_NoDup db : NoDup (row_part_number <$> active_parts db).
Proof.
  unfold active_parts. rewrite merge_sort_Permutation.
  rewrite <- list_fmap_compose.
  assert (Hfst : (row_part_number ∘ part_row <$>
                    filter (fun kv : string * InventoryItem => status kv.2 = "Active")
                      (map_to_list (mro_inventory db)))
                 = (filter (fun kv : string * InventoryItem => status kv.2 = "Active")
                      (map_to_list (mro_inventory db))).*1).
  { apply list_fmap_ext. intros i [k item] _. reflexivity. }
  rewrite Hfst.
  apply (sublist_NoDup _ ((map_to_list (mro_inventory db)).*1)).
  - apply (NoDup_fst_map_to_list (mro_inventory db)).
  - apply fmap_sublist. apply sublist_filter.
Qed.

(** X10.  [load_parts_data] reads the inventory without changing it.  When the
    server answers, the list holds one row for each part whose status is
    Active, with its number, name, location and quantity, and no other row;
    the rows are in the order of their part numbers.  When the server does
    not answer, the error is shown and the dialog keeps the list it had. *)
Theorem load_parts_data_lists_active_parts d c :
  let '(d', c', events) := load_parts_data d c in
  working c' = working c
  /\ committed c' = committed c
  /\ consumed_parts d' = consumed_parts d
  /\ match outage c with
     | Some O => d' = d /\ events = [Show (LoadFailed OperationalError)]
     | _ =>
         events = []
         /\ (forall r,
               r ∈ all_parts_data d'
               <-> exists item,
                     mro_inventory (working c) !! row_part_number r = Some item
                     /\ status item = "Active"
                     /\ r = part_row (row_part_number r, item))
         /\ Sorted by_part_number (all_parts_data d')
         /\ NoDup (row_part_number <$> all_parts_data d')
     end.
Proof.
  unfold load_parts_data, select_active_parts, bind, read.
  rewrite round_trip_exact.
  destruct (outage c) as [[|n]|]; cbn [working committed];
    repeat split; simpl;
    try apply active_parts_elem; try apply active_parts_sorted;
    try apply active_parts_NoDup.
Qed.

(** ** The details dialog *)

Lemma or_zero_eq q : (or_zero q == q)%Q.
Proof.
  unfold or_zero, Num.truthy. destruct (Qeq_bool q 0) eqn:E; simpl.
  - apply Qeq_bool_eq in E. rewrite E. reflexivity.
  - reflexivity.
Qed.

Lemma fold_cost_sum (rows : list PartsDataRow) start :
  (fold_left (fun total part => total + or_zero (cp_total_cost part)) rows start
   == start + Num.Qsum (cp_total_cost <$> rows))%Q.
Proof.
  revert start.
  induction rows as [|r rows IH]; intros start;
    cbn [fold_left fmap list_fmap Num.Qsum].
  - ring.
  - rewrite IH, or_zero_eq. ring.
Qed.

Lemma Qsum_Permutation l1 l2 :
  l1 ≡ₚ l2 -> (Num.Qsum l1 == Num.Qsum l2)%Q.
Proof.
  induction 1 as [|x l1 l2 _ IH|x y l|l1 l2 l3 _ IH1 _ IH2];
    cbn [Num.Qsum].
  - reflexivity.
  - rewrite IH. reflexivity.
  - ring.
  - rewrite IH1. exact IH2.
Qed.

Lemma select_cm_parts_costs cm db :
  (Num.Qsum (cp_total_cost <$> select_cm_parts cm db)
   == Num.Qsum (total_cost <$> used_for cm db))%Q.
Proof.
  unfold select_cm_parts.
  rewrite (Qsum_Permutation
             (cp_total_cost <$> merge_sort newest_first
                                  (left_join_inventory db <$> used_for cm db))
             (cp_total_cost <$> (left_join_inventory db <$> used_for cm db))).
  - rewrite <- list_fmap_compose. reflexivity.
  - apply fmap_Permutation. apply merge_sort_Permutation.
Qed.

Lemma select_cm_parts_length cm db :
  length (select_cm_parts cm db) = length (used_for cm db).
Proof.
  unfold select_cm_parts.
  rewrite (Permutation_length (merge_sort_Permutation _ _)).
  apply length_fmap.
Qed.

Lemma show_recorded_parts cm db u rows :
  used_for cm db = u :: rows ->
  let view := show_parts_data (select_cm_parts cm db) in
  summary_label view = TotalParts (length (u :: rows))
  /\ length (details_tree view) = length (u :: rows)
  /\ exists total,
       total_cost_label view = Some total
       /\ (total == Num.Qsum (total_cost <$> u :: rows))%Q.
Proof.
  intros Hrows view. unfold view.
  pose proof (select_cm_parts_length cm db) as Hlen.
  pose proof (select_cm_parts_costs cm db) as Hcost.
  rewrite Hrows in Hlen, Hcost.
  destruct (select_cm_parts cm db) as [|r rs] eqn:Hsel; [discriminate|].
  cbn [show_parts_data summary_label details_tree total_cost_label].
  rewrite length_fmap, Hlen.
  repeat split; auto.
  eexists. split; [reflexivity|].
  rewrite fold_cost_sum, Hcost. ring.
Qed.


Lemma used_for_after_save cm d now parts db :
  used_for cm (write_parts d now parts db)
  = used_for cm db
      ++ (if (cm_number d =? cm)%string then usage_row d now db <$> parts else []).
Proof.
  unfold used_for. rewrite write_parts_used, List.filter_app. f_equal.
  destruct (cm_number d =? cm)%string eqn:Hcm;
    induction parts as [|p ps IH];
    cbn [fmap list_fmap List.filter usage_row pu_cm_number] in *;
    rewrite ?Hcm, ?IH; reflexivity.
Qed.

(** X12.  After an accepted save, the details dialog of the work order shows as
    many rows more as the list had items, and a total cost higher by the
    cost of the list at the prices read at the save. *)
Theorem details_after_save answer now d c :
  consumed_parts d <> [] ->
  In Accept (save_and_close answer now d c).2 ->
  let db' := committed (save_and_close answer now d c).1.2 in
  let view := show_parts_data (select_cm_parts (cm_number d) db') in
  summary_label view
  = TotalParts (length (used_for (cm_number d) (working c))
                + length (consumed_parts d))
  /\ exists total,
       total_cost_label view = Some total
       /\ (total
           == Num.Qsum (total_cost <$> used_for (cm_number d) (working c))
              + batch_cost (working c) (consumed_parts d))%Q.
Proof.
  intros Hne Haccept db' view.
  assert (Hdb : db' = write_parts d now (consumed_parts d) (working c)).
  { unfold db'. rewrite (save_accepted_exact answer now d c Hne Haccept).
    reflexivity. }
  assert (Hrows : used_for (cm_number d) db'
                  = used_for (cm_number d) (working c)
                      ++ (usage_row d now (working c) <$> consumed_parts d)).
  { rewrite Hdb, used_for_after_save, String.eqb_refl. reflexivity. }
  destruct (used_for (cm_number d) (working c)
              ++ (usage_row d now (working c) <$> consumed_parts d))
    as [|u rows] eqn:Hall.
  - exfalso. apply app_eq_nil in Hall. destruct Hall as [_ Hall].
    apply fmap_nil_inv in Hall. contradiction.
  - destruct (show_recorded_parts (cm_number d) db' u rows Hrows)
      as (Hsum & _ & total & Htotal & Heq).
    fold view in Hsum, Htotal.
    split.
    + rewrite Hsum, <- Hall, length_app, length_fmap. reflexivity.
    + exists total. split; [exact Htotal|].
      rewrite Heq, <- Hall, fmap_app, Qsum_app, <- list_fmap_compose.
      reflexivity.
Qed.

Lemma details_after_save_witness :
  let d := Sample.three_entered.1 in
  let c := Sample.three_entered.2 in
  let db' := committed (save_and_close Yes 5 d c).1.2 in
  let view := show_parts_data (select_cm_parts (cm_number d) db') in
  consumed_parts d <> []
  /\ In Accept (save_and_close Yes 5 d c).2
  /\ summary_label view = TotalParts 1
  /\ exists total,
       total_cost_label view = Some total /\ (total == 15 # 2)%Q.
Proof.
  intros d c db' view.
  assert (Hne : consumed_parts d <> []) by (vm_compute; discriminate).
  assert (Haccept : In Accept (save_and_close Yes 5 d c).2) by (vm_compute; auto).
  split; [exact Hne|]. split; [exact Haccept|].
  destruct (details_after_save Yes 5 d c Hne Haccept) as (Hsum & total & Htotal & Heq).
  split; [exact Hsum|].
  exists total. split; [exact Htotal|].
  rewrite Heq. vm_compute. reflexivity.
Defined.

(** ** The health score and the connection *)

Lemma bind_query {A B} s (f : Database -> A) (k : A -> Cur B) c :
  bind (round_trip s ;; read f)%cur k c
  = match outage c with
    | Some O =>
        (Raise OperationalError,
         {| committed := committed c; working := working c;
            outage := None; log := log c |})
    | _ =>
        k (f (working c))
          {| committed := committed c; working := working c;
             outage := outage_after 1 (outage c); log := log c ++ [s] |}
    end.
Proof.
  unfold bind. rewrite round_trip_exact.
  destruct (outage c) as [[|n]|]; reflexivity.
Qed.

Ltac step_query Hrow :=
  rewrite bind_query;
  cbn [outage working committed log outage_after fmap option_fmap option_map
       Nat.sub];
  rewrite ?Hrow.

Ltac run_to_end Hrow :=
  repeat step_query Hrow;
  unfold commit, bind, round_trip, ret;
  cbn [outage working committed log rollback take];
  rewrite <- ?app_assoc; cbn [app]; rewrite ?app_nil_r, ?Nat.sub_0_r.

(** X13.  For an equipment that is in the table, the call sends six [SELECT]s and
    a commit.  When the server answers all seven, whatever the connection
    had pending is committed with it; when one of them fails, the call
    raises after a rollback, so whatever was pending is dropped, and the
    server has received only the statements before the failure. *)
Theorem health_score_ends_open_transaction bfm_no now c equip_row :
  equipment (working c) !! bfm_no = Some equip_row ->
  (in_reach_for 7 c ->
   exists m,
     History.get_equipment_health_score bfm_no now c
     = (Ok m,
        {| committed := working c; working := working c;
           outage := outage_after 7 (outage c);
           log := log c ++ health_score_statements bfm_no now |}))
  /\ (forall k,
        outage c = Some k -> (k < 7)%nat ->
        History.get_equipment_health_score bfm_no now c
        = (Raise OperationalError,
           {| committed := committed c; working := committed c;
              outage := None;
              log := log c ++ take k (health_score_statements bfm_no now) |})).
Proof.
  intros Hrow. destruct c as [cm wk o lg]. cbn [working] in Hrow.
  unfold History.get_equipment_health_score, History.or_rollback,
    History.health_score_body, History.select_equipment, History.count_pm,
    History.count_cm, History.sum_pm_hours, History.sum_cm_hours,
    History.count_parts_requests, in_reach_for, health_score_statements.
  cbn [outage working committed log].
  split.
  - intros Hreach. destruct o as [k|].
    + do 7 (destruct k as [|k]; [lia|]).
      run_to_end Hrow. eexists. reflexivity.
    + run_to_end Hrow. eexists. reflexivity.
  - intros k [= ->] Hlt.
    do 7 (destruct k as [|k]; [run_to_end Hrow; reflexivity|]).
    lia.
Qed.

(** The compressor, with its PM still pending and the fourth round trip
    failing: the call raises and the PM is gone. *)
Lemma health_score_ends_open_transaction_witness :
  let c := Fleet.mid_transaction in
  equipment (working c) !! "CMP-1" = Some Fleet.compressor
  /\ History.get_equipment_health_score "CMP-1" Sample.today c
     = (Raise OperationalError,
        {| committed := committed c; working := committed c; outage := None;
           log := log c ++ take 3 (health_score_statements "CMP-1" Sample.today) |})
  /\ pm_completions (committed c) = [].
Proof.
  intros c.
  assert (Hrow : equipment (working c) !! "CMP-1" = Some Fleet.compressor)
    by (vm_compute; reflexivity).
  split; [exact Hrow|]. split; [|reflexivity].
  apply (proj2 (health_score_ends_open_transaction "CMP-1" Sample.today c
                  Fleet.compressor Hrow) 3%nat).
  - reflexivity.
  - lia.
Defined.

(** ** Arithmetic of the deductions *)

Lemma round_half_even_mono p q :
  (p <= q)%Q -> Num.round_half_even p <= Num.round_half_even q.
Proof.
  intros Hpq. unfold Num.round_half_even.
  pose proof (Qfloor_resp_le p q Hpq) as Hfloor.
  pose proof (Qfloor_le p) as Hp0. pose proof (Qlt_floor p) as Hp1.
  pose proof (Qfloor_le q) as Hq0. pose proof (Qlt_floor q) as Hq1.
  destruct (Z.eq_dec (Qfloor p) (Qfloor q)) as [Heq|Hne].
  - rewrite <- Heq in *.
    set (f := Qfloor p) in *.
    destruct (p - inject_Z f ?= 1 # 2)%Q eqn:Ep;
      destruct (q - inject_Z f ?= 1 # 2)%Q eqn:Eq;
      try apply <- Qeq_alt in Ep; try apply <- Qlt_alt in Ep;
      try apply <- Qgt_alt in Ep;
      try apply <- Qeq_alt in Eq; try apply <- Qlt_alt in Eq;
      try apply <- Qgt_alt in Eq;
      try (exfalso; lra);
      destruct (Z.even f); lia.
  - assert (Qfloor p + 1 <= Qfloor q) by lia.
    destruct (p - inject_Z (Qfloor p) ?= 1 # 2)%Q;
      destruct (q - inject_Z (Qfloor q) ?= 1 # 2)%Q;
      destruct (Z.even (Qfloor p)); destruct (Z.even (Qfloor q)); lia.
Qed.

Lemma round1_mono p q : (p <= q)%Q -> (Num.round1 p <= Num.round1 q)%Q.
Proof.
  intros Hpq. unfold Num.round1. rewrite !Qred_correct.
  assert (H : Num.round_half_even (p * 10) <= Num.round_half_even (q * 10)).
  { apply round_half_even_mono. lra. }
  unfold Qle. simpl. lia.
Qed.

Lemma cm_frequency_of_mono a b :
  a <= b -> (History.cm_frequency_of a <= History.cm_frequency_of b)%Q.
Proof.
  intros Hab. unfold History.cm_frequency_of. apply round1_mono.
  apply Qmult_le_compat_r; [|discriminate].
  rewrite <- Zle_Qle. exact Hab.
Qed.

(** The frequency is at most 1.0 up to twelve work orders in the year and
    at most 2.0 up to twenty-four. *)
Lemma cm_frequency_of_le_1 n :
  Qle_bool (History.cm_frequency_of n) 1 = true <-> n <= 12.
Proof.
  split.
  - intros H. apply Qle_bool_iff in H.
    destruct (Z_le_gt_dec n 12) as [Hle|Hgt]; [exact Hle|exfalso].
    pose proof (cm_frequency_of_mono 13 n ltac:(lia)) as Hmono.
    assert (H13 : (History.cm_frequency_of 13 == 11 # 10)%Q)
      by (vm_compute; reflexivity).
    lra.
  - intros H. apply Qle_bool_iff.
    pose proof (cm_frequency_of_mono n 12 H) as Hmono.
    assert (H12 : (History.cm_frequency_of 12 == 1)%Q)
      by (vm_compute; reflexivity).
    lra.
Qed.

Lemma cm_frequency_of_le_2 n :
  Qle_bool (History.cm_frequency_of n) 2 = true <-> n <= 24.
Proof.
  split.
  - intros H. apply Qle_bool_iff in H.
    destruct (Z_le_gt_dec n 24) as [Hle|Hgt]; [exact Hle|exfalso].
    pose proof (cm_frequency_of_mono 25 n ltac:(lia)) as Hmono.
    assert (H25 : (History.cm_frequency_of 25 == 21 # 10)%Q)
      by (vm_compute; reflexivity).
    lra.
  - intros H. apply Qle_bool_iff.
    pose proof (cm_frequency_of_mono n 24 H) as Hmono.
    assert (H24 : (History.cm_frequency_of 24 == 2)%Q)
      by (vm_compute; reflexivity).
    lra.
Qed.

Lemma ratio_mono a b expected :
  a <= b -> 0 <= expected ->
  (inject_Z a / inject_Z expected * 100
   <= inject_Z b / inject_Z expected * 100)%Q.
Proof.
  intros Hab He.
  apply Qmult_le_compat_r; [|discriminate].
  apply Qmult_le_compat_r.
  - rewrite <- Zle_Qle. exact Hab.
  - apply Qinv_le_0_compat. apply inject_Z_nonneg. exact He.
Qed.

Lemma pm_compliance_of_mono a b expected :
  0 <= a <= b -> 0 <= expected ->
  History.pm_compliance_of a expected <= History.pm_compliance_of b expected.
Proof.
  intros [Ha Hab] He. unfold History.pm_compliance_of.
  destruct (0 <? expected); [|lia].
  rewrite !int_of_Q_floor by (apply ratio_nonneg; lia).
  pose proof (Qfloor_resp_le _ _ (ratio_mono a b expected Hab He)). lia.
Qed.

(** Completions at least as many as expected give 100, fewer give less. *)
Lemma pm_compliance_of_full completed expected :
  0 <= completed -> 0 <= expected ->
  History.pm_compliance_of completed expected = 100
  <-> 0 < expected <= completed.
Proof.
  intros Hc He. unfold History.pm_compliance_of.
  destruct (Z.ltb_spec 0 expected) as [Hpos|Hzero]; [|lia].
  pose proof (ratio_nonneg completed expected Hc He) as Hq.
  rewrite int_of_Q_floor by exact Hq.
  assert (Hepos : (0 < inject_Z expected)%Q)
    by (change 0%Q with (inject_Z 0); rewrite <- Zlt_Qlt; exact Hpos).
  set (x := (inject_Z completed / inject_Z expected)%Q) in *.
  split.
  - intros H.
    assert (Hfloor : 100 <= Qfloor (x * 100)) by lia.
    assert (Hx : (1 <= x)%Q).
    { pose proof (Qfloor_le (x * 100)) as Hle.
      assert (inject_Z 100 <= inject_Z (Qfloor (x * 100)))%Q
        by (rewrite <- Zle_Qle; exact Hfloor).
      change (inject_Z 100) with 100%Q in *. lra. }
    split; [exact Hpos|].
    destruct (Z_le_gt_dec expected completed) as [Hle|Hgt]; [exact Hle|exfalso].
    assert (x < 1)%Q.
    { unfold x. apply Qlt_shift_div_r; [exact Hepos|].
      rewrite Qmult_1_l. rewrite <- Zlt_Qlt. lia. }
    lra.
  - intros [_ Hle].
    assert (Hx : (1 <= x)%Q).
    { unfold x. apply Qle_shift_div_l; [exact Hepos|].
      rewrite Qmult_1_l. rewrite <- Zle_Qle. exact Hle. }
    assert (Hge : (inject_Z 100 <= x * 100)%Q)
      by (change (inject_Z 100) with 100%Q; lra).
    apply Qfloor_resp_le in Hge. rewrite Qfloor_Z in Hge. lia.
Qed.

Lemma score_of_mono pc1 pc2 f1 f2 status :
  pc1 <= pc2 -> (f2 <= f1)%Q ->
  (History.score_of pc1 f1 status <= History.score_of pc2 f2 status)%Q.
Proof.
  intros Hpc Hf. unfold History.score_of.
  assert (Hx : (inject_Z (100 - pc2) <= inject_Z (100 - pc1))%Q)
    by (rewrite <- Zle_Qle; lia).
  set (x1 := inject_Z (100 - pc1)) in *. set (x2 := inject_Z (100 - pc2)) in *.
  destruct (Qle_bool f1 1) eqn:H1; destruct (Qle_bool f2 1) eqn:H2;
    cbn [negb];
    try apply Qle_bool_iff in H1; try apply Qle_bool_false in H1;
    try apply Qle_bool_iff in H2; try apply Qle_bool_false in H2;
    destruct (negb (status =? "Active")%string);
    try (destruct (Qmin_cases 20 ((f1 - 1) * 10)) as [(_ & -> & ?)|(_ & -> & ?)]);
    try (destruct (Qmin_cases 20 ((f2 - 1) * 10)) as [(_ & -> & ?)|(_ & -> & ?)]);
    lra.
Qed.

Lemma health_score_of_mono pc1 pc2 f1 f2 status :
  0 <= pc1 <= pc2 -> pc2 <= 100 -> (f2 <= f1)%Q ->
  History.health_score_of pc1 f1 status <= History.health_score_of pc2 f2 status.
Proof.
  intros [Hlo Hpc] Hhi Hf. unfold History.health_score_of.
  destruct (score_of_between pc1 f1 status ltac:(lia)) as [H1 _].
  destruct (score_of_between pc2 f2 status ltac:(lia)) as [H2 _].
  rewrite !int_of_Q_floor by lra.
  pose proof (Qfloor_resp_le _ _ (score_of_mono pc1 pc2 f1 f2 status Hpc Hf)).
  lia.
Qed.

Lemma health_score_of_le (bound : Z) pc f status :
  0 <= pc <= 100 ->
  (History.score_of pc f status <= inject_Z bound)%Q ->
  History.health_score_of pc f status <= bound.
Proof.
  intros Hpc Hle. unfold History.health_score_of.
  destruct (score_of_between pc f status Hpc) as [Hlo _].
  assert (Hb : (inject_Z 20 <= inject_Z bound)%Q)
    by (change (inject_Z 20) with 20%Q; lra).
  rewrite <- Zle_Qle in Hb.
  pose proof (int_of_Q_between 20 bound _ ltac:(lia) Hlo Hle). lia.
Qed.

Lemma health_score_of_ge (bound : Z) pc f status :
  0 <= pc <= 100 -> 0 <= bound ->
  (inject_Z bound <= History.score_of pc f status)%Q ->
  bound <= History.health_score_of pc f status.
Proof.
  intros Hpc Hb Hge. unfold History.health_score_of.
  destruct (score_of_between pc f status Hpc) as [_ Hhi].
  pose proof (int_of_Q_between bound 100 _ Hb Hge Hhi). lia.
Qed.

(** Not Active costs 30 points. *)
Lemma health_score_of_not_active pc f status :
  0 <= pc <= 100 -> status <> "Active" ->
  History.health_score_of pc f status <= 70.
Proof.
  intros Hpc Hstatus. apply health_score_of_le; [exact Hpc|].
  unfold History.score_of. apply String.eqb_neq in Hstatus. rewrite Hstatus.
  assert (Hx0 : (0 <= inject_Z (100 - pc))%Q) by (apply inject_Z_nonneg; lia).
  set (x := inject_Z (100 - pc)) in *. change (inject_Z 70) with 70%Q.
  cbn [negb].
  destruct (Qle_bool f 1) eqn:Hf; cbn [negb]; [lra|].
  apply Qle_bool_false in Hf.
  destruct (Qmin_cases 20 ((f - 1) * 10)) as [(_ & -> & H)|(_ & -> & H)]; lra.
Qed.

(** Compliance 0 costs 30 points. *)
Lemma health_score_of_no_compliance f status :
  History.health_score_of 0 f status <= 70.
Proof.
  apply health_score_of_le; [lia|].
  unfold History.score_of. change (inject_Z (100 - 0)) with 100%Q.
  change (inject_Z 70) with 70%Q.
  destruct (Qle_bool f 1) eqn:Hf; cbn [negb];
    destruct (negb (status =? "Active")%string); try lra;
    apply Qle_bool_false in Hf;
    destruct (Qmin_cases 20 ((f - 1) * 10)) as [(_ & -> & H)|(_ & -> & H)]; lra.
Qed.

(** With nothing to recommend on compliance, frequency and status, at most
    16 points are lost. *)
Lemma health_score_of_no_issue pc f :
  80 <= pc <= 100 -> (f <= 2)%Q ->
  84 <= History.health_score_of pc f "Active".
Proof.
  intros Hpc Hf. apply health_score_of_ge; [lia|lia|].
  unfold History.score_of.
  assert (Hx : (inject_Z (100 - pc) <= inject_Z 20)%Q) by (rewrite <- Zle_Qle; lia).
  change (inject_Z 20) with 20%Q in Hx. change (inject_Z 84) with 84%Q.
  set (x := inject_Z (100 - pc)) in *.
  change (negb ("Active" =? "Active")%string) with false. cbv iota.
  destruct (Qle_bool f 1) eqn:H1; cbn [negb]; [lra|].
  apply Qle_bool_false in H1.
  destruct (Qmin_cases 20 ((f - 1) * 10)) as [(_ & -> & H)|(_ & -> & H)]; lra.
Qed.

Lemma health_score_of_perfect pc f status :
  0 <= pc <= 100 ->
  History.health_score_of pc f status = 100
  <-> pc = 100 /\ Qle_bool f 1 = true /\ status = "Active".
Proof.
  intros Hpc. split.
  - intros H.
    assert (Hscore : (100 <= History.score_of pc f status)%Q).
    { unfold History.health_score_of in H.
      destruct (score_of_between pc f status Hpc) as [Hlo _].
      rewrite int_of_Q_floor in H by lra.
      pose proof (Qfloor_le (History.score_of pc f status)) as Hle.
      assert (Hf : Qfloor (History.score_of pc f status) = 100) by lia.
      rewrite Hf in Hle. exact Hle. }
    destruct (String.eqb_spec status "Active") as [Hactive|Hother].
    + destruct (Qle_bool f 1) eqn:Hf.
      * split; [|auto].
        destruct (Z.eq_dec pc 100) as [Heq|Hne]; [exact Heq|exfalso].
        assert (H99 : (History.score_of 99 f status <= 997 # 10)%Q).
        { unfold History.score_of. rewrite Hf, Hactive. vm_compute.
          discriminate. }
        pose proof (score_of_mono pc 99 f f status ltac:(lia) ltac:(lra)).
        lra.
      * exfalso. apply Qle_bool_false in Hf.
        unfold History.score_of in Hscore.
        assert (Hx0 : (0 <= inject_Z (100 - pc))%Q) by (apply inject_Z_nonneg; lia).
        set (x := inject_Z (100 - pc)) in *.
        apply Qle_bool_lt in Hf. rewrite Hf in Hscore. cbn [negb] in Hscore.
        apply Qle_bool_false in Hf.
        destruct (negb (status =? "Active")%string);
          destruct (Qmin_cases 20 ((f - 1) * 10)) as [(_ & E & H')|(_ & E & H')];
          rewrite E in Hscore; lra.
    + exfalso.
      pose proof (health_score_of_not_active pc f status Hpc Hother). lia.
  - intros (-> & Hf & ->).
    unfold History.health_score_of, History.score_of. rewrite Hf.
    vm_compute. reflexivity.
Qed.

Lemma recommendations_of_nil pc f requests status :
  History.recommendations_of pc f requests status = []
  <-> 80 <= pc /\ Qle_bool f 2 = true /\ requests <= 20 /\ status = "Active".
Proof.
  unfold History.recommendations_of.
  destruct (Z.ltb_spec pc 80), (Qle_bool f 2), (Z.ltb_spec 20 requests),
    (String.eqb_spec status "Active"); cbn [negb app]; split;
    try discriminate; try (intros (? & ? & ? & ?)); try lia;
    try congruence; auto.
Qed.

(** ** What the metrics say about the equipment *)

(** The metrics of a call that returned, for an equipment in the table. *)
Lemma metrics_of_call bfm_no now c equip_row m c' :
  equipment (working c) !! bfm_no = Some equip_row ->
  History.get_equipment_health_score bfm_no now c = (Ok m, c') ->
  let completed := Window.completed_pms (working c) bfm_no now in
  let expected := History.expected_pms_of equip_row in
  let cms := Window.cm_count (working c) bfm_no now in
  let requests := Window.parts_requests (working c) bfm_no now in
  0 <= History.pm_compliance m <= 100
  /\ History.pm_compliance m = History.pm_compliance_of completed expected
  /\ History.cm_frequency m = History.cm_frequency_of cms
  /\ History.status m = eq_status equip_row
  /\ History.health_score m
     = History.health_score_of (History.pm_compliance m)
         (History.cm_frequency m) (History.status m)
  /\ History.parts_count m = Some requests
  /\ History.recommendations m
     = History.recommendations_of (History.pm_compliance m)
         (History.cm_frequency m) requests (History.status m).
Proof.
  intros Hrow Hrun completed expected cms requests.
  apply get_equipment_health_score_ok in Hrun. destruct Hrun as (c1 & Hrun).
  destruct (health_score_body_ok bfm_no now c equip_row m c1 Hrow Hrun)
    as (Hpc & Hf & Hstatus & Hscore & Hcount & Hrec).
  rewrite Hscore, Hrec, Hpc, Hf, Hstatus, Hcount.
  repeat split; try reflexivity;
    apply pm_compliance_of_between;
    auto using completed_pms_nonneg, expected_pms_nonneg.
Qed.

(** X14.  For an equipment in the table, the call recommends nothing exactly when
    the compliance is at least 80, there were at most 24 corrective work
    orders and at most 20 parts requests in the last 365 days, and the
    status is Active; the health score is then at least 84. *)
Theorem nothing_recommended_iff bfm_no now c equip_row m c' :
  equipment (working c) !! bfm_no = Some equip_row ->
  History.get_equipment_health_score bfm_no now c = (Ok m, c') ->
  (History.recommendations m = []
   <-> 80 <= History.pm_compliance m
       /\ Window.cm_count (working c) bfm_no now <= 24
       /\ Window.parts_requests (working c) bfm_no now <= 20
       /\ eq_status equip_row = "Active")
  /\ (History.recommendations m = [] -> 84 <= History.health_score m).
Proof.
  intros Hrow Hrun.
  destruct (metrics_of_call bfm_no now c equip_row m c' Hrow Hrun)
    as (Hbound & _ & Hf & Hstatus & Hscore & _ & Hrec).
  assert (Hiff : History.recommendations m = []
                 <-> 80 <= History.pm_compliance m
                     /\ Window.cm_count (working c) bfm_no now <= 24
                     /\ Window.parts_requests (working c) bfm_no now <= 20
                     /\ eq_status equip_row = "Active").
  { rewrite Hrec, recommendations_of_nil, Hf, cm_frequency_of_le_2, Hstatus.
    reflexivity. }
  split; [exact Hiff|].
  intros Hnil. apply Hiff in Hnil. destruct Hnil as (Hpc & Hcm & _ & Hactive).
  rewrite Hscore, Hstatus, Hactive.
  apply health_score_of_no_issue; [lia|].
  apply Qle_bool_iff. rewrite Hf. apply cm_frequency_of_le_2. exact Hcm.
Qed.

(** X15.  An equipment that is not Active, or one with neither a monthly nor an
    annual PM, scores at most 70.  The first gets the recommendation on its
    status, as the last one; the second has compliance 0 and gets the
    recommendation on compliance, as the first one. *)
Theorem inactive_or_unscheduled_at_most_70 bfm_no now c equip_row m c' :
  equipment (working c) !! bfm_no = Some equip_row ->
  History.get_equipment_health_score bfm_no now c = (Ok m, c') ->
  (eq_status equip_row <> "Active" ->
   History.health_score m <= 70
   /\ last (History.recommendations m)
      = Some (String.append "Equipment status is '"
                (String.append (eq_status equip_row) "' - review and update")))
  /\ (monthly_pm equip_row <> "X" -> annual_pm equip_row <> "X" ->
      History.pm_compliance m = 0
      /\ History.health_score m <= 70
      /\ head (History.recommendations m)
         = Some "Improve PM compliance - currently below 80%").
Proof.
  intros Hrow Hrun.
  destruct (metrics_of_call bfm_no now c equip_row m c' Hrow Hrun)
    as (Hbound & Hpc & _ & Hstatus & Hscore & _ & Hrec).
  split.
  - intros Hother. split.
    + rewrite Hscore, Hstatus. apply health_score_of_not_active; assumption.
    + rewrite Hrec, Hstatus. unfold History.recommendations_of.
      apply String.eqb_neq in Hother. rewrite Hother. cbn [negb].
      rewrite !app_assoc. apply last_snoc.
  - intros Hmonthly Hannual.
    assert (Hzero : History.pm_compliance m = 0).
    { rewrite Hpc. unfold History.pm_compliance_of, History.expected_pms_of.
      apply String.eqb_neq in Hmonthly, Hannual.
      rewrite Hmonthly, Hannual. reflexivity. }
    split; [exact Hzero|]. split.
    + rewrite Hscore, Hzero. apply health_score_of_no_compliance.
    + rewrite Hrec, Hzero. reflexivity.
Qed.

(** X16.  The health score is 100 exactly when the PMs completed in the last 365
    days are at least the 12, 1 or 13 expected, there were at most twelve
    corrective work orders in that time, and the status is Active. *)
Theorem perfect_score_iff bfm_no now c equip_row m c' :
  equipment (working c) !! bfm_no = Some equip_row ->
  History.get_equipment_health_score bfm_no now c = (Ok m, c') ->
  History.health_score m = 100
  <-> 0 < History.expected_pms_of equip_row
          <= Window.completed_pms (working c) bfm_no now
      /\ Window.cm_count (working c) bfm_no now <= 12
      /\ eq_status equip_row = "Active".
Proof.
  intros Hrow Hrun.
  destruct (metrics_of_call bfm_no now c equip_row m c' Hrow Hrun)
    as (Hbound & Hpc & Hf & Hstatus & Hscore & _).
  rewrite Hscore, (health_score_of_perfect _ _ _ Hbound), Hf,
    cm_frequency_of_le_1, Hstatus, Hpc.
  rewrite (pm_compliance_of_full _ _
             (completed_pms_nonneg (working c) bfm_no now)
             (expected_pms_nonneg equip_row)).
  reflexivity.
Qed.

(** X17.  Between two states of the database with the same equipment row, the one
    with at least as many PM completions and at most as many corrective
    work orders in the last 365 days has at least the health score of the
    other. *)
Theorem more_pms_fewer_cms_never_lower_score
    bfm_no now c1 c2 equip_row m1 m2 c1' c2' :
  equipment (working c1) !! bfm_no = Some equip_row ->
  equipment (working c2) !! bfm_no = Some equip_row ->
  History.get_equipment_health_score bfm_no now c1 = (Ok m1, c1') ->
  History.get_equipment_health_score bfm_no now c2 = (Ok m2, c2') ->
  Window.completed_pms (working c1) bfm_no now
    <= Window.completed_pms (working c2) bfm_no now ->
  Window.cm_count (working c2) bfm_no now
    <= Window.cm_count (working c1) bfm_no now ->
  History.pm_compliance m1 <= History.pm_compliance m2
  /\ (History.cm_frequency m2 <= History.cm_frequency m1)%Q
  /\ History.health_score m1 <= History.health_score m2.
Proof.
  intros Hrow1 Hrow2 Hrun1 Hrun2 Hpms Hcms.
  destruct (metrics_of_call bfm_no now c1 equip_row m1 c1' Hrow1 Hrun1)
    as (Hbound1 & Hpc1 & Hf1 & Hstatus1 & Hscore1 & _).
  destruct (metrics_of_call bfm_no now c2 equip_row m2 c2' Hrow2 Hrun2)
    as (Hbound2 & Hpc2 & Hf2 & Hstatus2 & Hscore2 & _).
  assert (Hpc : History.pm_compliance m1 <= History.pm_compliance m2).
  { rewrite Hpc1, Hpc2. apply pm_compliance_of_mono.
    - split; [apply completed_pms_nonneg|exact Hpms].
    - apply expected_pms_nonneg. }
  assert (Hf : (History.cm_frequency m2 <= History.cm_frequency m1)%Q).
  { rewrite Hf1, Hf2. apply cm_frequency_of_mono. exact Hcms. }
  split; [exact Hpc|]. split; [exact Hf|].
  rewrite Hscore1, Hscore2, Hstatus1, Hstatus2.
  apply health_score_of_mono; [lia|lia|exact Hf].
Qed.

(** X18.  What [_display_health_score] makes of the metrics.  For an equipment
    that is not in the table the text shows score 0, no parts request and
    the line that no issue was detected; for one that is, it shows the
    number of parts requests of the last 365 days and one line per
    recommendation, and the line that no issue was detected only with a
    score of at least 84. *)
Theorem display_of_health_score bfm_no now c m c' :
  History.get_equipment_health_score bfm_no now c = (Ok m, c') ->
  match equipment (working c) !! bfm_no with
  | None =>
      History.health_score m = 0
      /\ parts_requests_shown m = 0
      /\ recommendation_lines m
         = ["- No issues detected. Equipment is performing well."]
  | Some _ =>
      parts_requests_shown m = Window.parts_requests (working c) bfm_no now
      /\ match History.recommendations m with
         | [] =>
             recommendation_lines m
             = ["- No issues detected. Equipment is performing well."]
             /\ 84 <= History.health_score m
         | recs =>
             recommendation_lines m = (fun rec => String.append "- " rec) <$> recs
         end
  end.
Proof.
  intros Hrun.
  destruct (equipment (working c) !! bfm_no) as [equip_row|] eqn:Hrow.
  - destruct (metrics_of_call bfm_no now c equip_row m c' Hrow Hrun)
      as (Hbound & _ & Hf & Hstatus & Hscore & Hcount & Hrec).
    split.
    + unfold parts_requests_shown. rewrite Hcount. reflexivity.
    + destruct (History.recommendations m) as [|r recs] eqn:Hrecs.
      * split; [unfold recommendation_lines; rewrite Hrecs; reflexivity|].
        symmetry in Hrec. apply recommendations_of_nil in Hrec.
        destruct Hrec as (Hpc & Hf2 & _ & Hactive).
        rewrite Hscore, Hactive.
        apply health_score_of_no_issue; [lia|].
        apply Qle_bool_iff. exact Hf2.
      * unfold recommendation_lines. rewrite Hrecs, app_nil_r. reflexivity.
  - revert Hrun.
    unfold History.get_equipment_health_score, History.or_rollback,
      History.health_score_body, History.select_equipment.
    rewrite bind_query. rewrite Hrow.
    destruct (outage c) as [[|n]|]; unfold ret; intros [= <- _];
      repeat split; reflexivity.
Qed.

(** The compressor: nothing recommended, score 100. *)
Lemma nothing_recommended_iff_witness :
  let c := connect Fleet.workshop in
  let r := History.get_equipment_health_score "CMP-1" Sample.today c in
  let m := returned r in
  equipment (working c) !! "CMP-1" = Some Fleet.compressor
  /\ r = (Ok m, r.2)
  /\ History.recommendations m = []
  /\ 84 <= History.health_score m.
Proof.
  intros c r m.
  assert (Hrow : equipment (working c) !! "CMP-1" = Some Fleet.compressor)
    by (vm_compute; reflexivity).
  assert (Hrun : r = (Ok m, r.2)) by (vm_compute; reflexivity).
  split; [exact Hrow|]. split; [exact Hrun|].
  destruct (nothing_recommended_iff "CMP-1" Sample.today c Fleet.compressor
              m r.2 Hrow Hrun) as [Hiff Hscore].
  assert (Hnil : History.recommendations m = []).
  { apply Hiff. repeat split; vm_compute; congruence. }
  split; [exact Hnil|]. exact (Hscore Hnil).
Defined.

(** The mixer: out of service and without a PM. *)
Lemma inactive_or_unscheduled_at_most_70_witness :
  let c := connect Fleet.workshop in
  let r := History.get_equipment_health_score "MIX-3" Sample.today c in
  let m := returned r in
  equipment (working c) !! "MIX-3" = Some Fleet.mixer
  /\ r = (Ok m, r.2)
  /\ History.health_score m <= 70
  /\ History.pm_compliance m = 0
  /\ last (History.recommendations m)
     = Some "Equipment status is 'Out of Service' - review and update"
  /\ head (History.recommendations m)
     = Some "Improve PM compliance - currently below 80%".
Proof.
  intros c r m.
  assert (Hrow : equipment (working c) !! "MIX-3" = Some Fleet.mixer)
    by (vm_compute; reflexivity).
  assert (Hrun : r = (Ok m, r.2)) by (vm_compute; reflexivity).
  split; [exact Hrow|]. split; [exact Hrun|].
  destruct (inactive_or_unscheduled_at_most_70 "MIX-3" Sample.today c
              Fleet.mixer m r.2 Hrow Hrun) as [Hinactive Hunscheduled].
  destruct (Hinactive ltac:(discriminate)) as [Hscore Hlast].
  destruct (Hunscheduled ltac:(discriminate) ltac:(discriminate))
    as (Hzero & _ & Hhead).
  auto.
Defined.

(** The compressor scores 100. *)
Lemma perfect_score_iff_witness :
  let c := connect Fleet.workshop in
  let r := History.get_equipment_health_score "CMP-1" Sample.today c in
  let m := returned r in
  equipment (working c) !! "CMP-1" = Some Fleet.compressor
  /\ r = (Ok m, r.2)
  /\ History.health_score m = 100.
Proof.
  intros c r m.
  assert (Hrow : equipment (working c) !! "CMP-1" = Some Fleet.compressor)
    by (vm_compute; reflexivity).
  assert (Hrun : r = (Ok m, r.2)) by (vm_compute; reflexivity).
  split; [exact Hrow|]. split; [exact Hrun|].
  apply (perfect_score_iff "CMP-1" Sample.today c Fleet.compressor m r.2
           Hrow Hrun).
  repeat split; vm_compute; congruence.
Defined.

(** The fan with seven and with nine completions. *)
Lemma more_pms_fewer_cms_never_lower_score_witness :
  let c1 := connect Sample.seven_of_thirteen in
  let c2 := connect Fleet.nine_of_thirteen in
  let r1 := History.get_equipment_health_score "FAN-2" Sample.today c1 in
  let r2 := History.get_equipment_health_score "FAN-2" Sample.today c2 in
  equipment (working c1) !! "FAN-2" = Some (Sample.pump "X" "X")
  /\ equipment (working c2) !! "FAN-2" = Some (Sample.pump "X" "X")
  /\ r1 = (Ok (returned r1), r1.2)
  /\ r2 = (Ok (returned r2), r2.2)
  /\ Window.completed_pms (working c1) "FAN-2" Sample.today
     <= Window.completed_pms (working c2) "FAN-2" Sample.today
  /\ Window.cm_count (working c2) "FAN-2" Sample.today
     <= Window.cm_count (working c1) "FAN-2" Sample.today
  /\ History.health_score (returned r1) <= History.health_score (returned r2).
Proof.
  intros c1 c2 r1 r2.
  assert (Hrow1 : equipment (working c1) !! "FAN-2" = Some (Sample.pump "X" "X"))
    by (vm_compute; reflexivity).
  assert (Hrow2 : equipment (working c2) !! "FAN-2" = Some (Sample.pump "X" "X"))
    by (vm_compute; reflexivity).
  assert (Hrun1 : r1 = (Ok (returned r1), r1.2)) by (vm_compute; reflexivity).
  assert (Hrun2 : r2 = (Ok (returned r2), r2.2)) by (vm_compute; reflexivity).
  assert (Hpms : Window.completed_pms (working c1) "FAN-2" Sample.today
                 <= Window.completed_pms (working c2) "FAN-2" Sample.today)
    by (vm_compute; congruence).
  assert (Hcms : Window.cm_count (working c2) "FAN-2" Sample.today
                 <= Window.cm_count (working c1) "FAN-2" Sample.today)
    by (vm_compute; congruence).
  repeat (split; [assumption|]).
  exact (proj2 (proj2 (more_pms_fewer_cms_never_lower_score "FAN-2" Sample.today
                         c1 c2 _ _ _ _ _ Hrow1 Hrow2 Hrun1 Hrun2 Hpms Hcms))).
Defined.

(** An equipment number that is not in the table is shown with score 0 and
    no issue. *)
Lemma display_of_health_score_witness :
  let c := connect Fleet.workshop in
  let r := History.get_equipment_health_score "NO-SUCH" Sample.today c in
  let m := returned r in
  r = (Ok m, r.2)
  /\ History.health_score m = 0
  /\ parts_requests_shown m = 0
  /\ recommendation_lines m
     = ["- No issues detected. Equipment is performing well."].
Proof.
  intros c r m.
  assert (Hrun : r = (Ok m, r.2)) by (vm_compute; reflexivity).
  split; [exact Hrun|].
  exact (display_of_health_score "NO-SUCH" Sample.today c m r.2 Hrun).
Defined.

(** ** Labels and buckets of the trends *)

Lemma split_dash_dashless s : dashless s = true -> History.split_dash s = [s].
Proof.
  induction s as [|a r IH]; [reflexivity|].
  cbn [dashless History.split_dash]. intros H.
  apply andb_prop in H. destruct H as [Ha Hr].
  apply negb_true_iff in Ha. rewrite Ha, (IH Hr). reflexivity.
Qed.

Lemma split_dash_two a b :
  dashless a = true -> dashless b = true ->
  History.split_dash (String.append a (String "-" b)) = [a; b].
Proof.
  intros Ha Hb. induction a as [|x a IH].
  - simpl. rewrite (split_dash_dashless b Hb). reflexivity.
  - cbn [dashless] in Ha. apply andb_prop in Ha. destruct Ha as [Hx Ha].
    apply negb_true_iff in Hx.
    simpl. rewrite Hx, (IH Ha). reflexivity.
Qed.

Lemma dashless_app a b :
  dashless a = true -> dashless b = true -> dashless (String.append a b) = true.
Proof.
  intros Ha Hb. induction a as [|x a IH]; [exact Hb|].
  simpl in *. apply andb_prop in Ha.
  destruct Ha as [Hx Ha]. rewrite Hx, (IH Ha). reflexivity.
Qed.

Lemma dashless_zeros k : dashless (History.zeros k) = true.
Proof. induction k as [|k IH]; [reflexivity|]. cbn. exact IH. Qed.

Lemma dashless_string_of_uint u : dashless (NilEmpty.string_of_uint u) = true.
Proof. induction u; cbn; auto. Qed.

Lemma dashless_digits n : dashless (History.digits n) = true.
Proof.
  unfold History.digits, NilZero.string_of_uint.
  destruct (N.to_uint (Z.to_N n)); try reflexivity;
    apply (dashless_string_of_uint (_ _)).
Qed.

Lemma dashless_zero_pad w n : dashless (History.zero_pad w (History.digits n)) = true.
Proof.
  unfold History.zero_pad. apply dashless_app.
  - apply dashless_zeros.
  - apply dashless_digits.
Qed.

Lemma uint_of_string_zeros k s u :
  NilEmpty.uint_of_string s = Some u ->
  exists u', NilEmpty.uint_of_string (String.append (History.zeros k) s) = Some u'
             /\ N.of_uint u' = N.of_uint u.
Proof.
  intros Hs. induction k as [|k (u' & Hu' & Heq)].
  - exists u. auto.
  - exists (Decimal.D0 u'). simpl. rewrite Hu'. split; [reflexivity|]. exact Heq.
Qed.

Lemma int_of_string_zero_pad w n :
  0 <= n -> History.int_of_string (History.zero_pad w (History.digits n)) = Some n.
Proof.
  intros Hn. unfold History.int_of_string, History.zero_pad.
  set (k := (w - String.length (History.digits n))%nat).
  assert (Hdigits : exists u, NilEmpty.uint_of_string (History.digits n) = Some u
                              /\ N.of_uint u = Z.to_N n
                              /\ History.digits n <> "").
  { unfold History.digits.
    destruct (N.to_uint (Z.to_N n)) as [| | | | | | | | | |] eqn:E;
      try (eexists; split; [apply (NilEmpty.usu (_ _))|];
           split; [rewrite <- E; apply DecimalN.Unsigned.of_to|discriminate]).
    exists (Decimal.D0 Decimal.Nil). split; [reflexivity|].
    split; [|discriminate].
    rewrite <- (DecimalN.Unsigned.of_to (Z.to_N n)), E. reflexivity. }
  destruct Hdigits as (u & Hu & Hval & Hne).
  destruct (uint_of_string_zeros k _ _ Hu) as (u' & Hu' & Heq).
  assert (Hnz : NilZero.uint_of_string (String.append (History.zeros k) (History.digits n))
                = Some u').
  { unfold NilZero.uint_of_string.
    destruct (String.append (History.zeros k) (History.digits n)) eqn:E.
    - destruct k; cbn in E; [contradiction|discriminate].
    - exact Hu'. }
  rewrite Hnz. cbn [fmap option_fmap option_map].
  rewrite Heq, Hval, Z2N.id by exact Hn. reflexivity.
Qed.

(** A label is read back as the year and the month it was made from. *)
Lemma year_mon_strftime d :
  0 <= Calendar.year d -> 0 <= Calendar.month d ->
  History.year_mon (History.strftime_Ym d)
  = Some (Calendar.year d, Calendar.month d).
Proof.
  intros Hy Hm. unfold History.year_mon, History.strftime_Ym.
  change (String.append "-" ?s) with (String "-" s).
  rewrite split_dash_two by apply dashless_zero_pad.
  rewrite !int_of_string_zero_pad by assumption. reflexivity.
Qed.

(** The date of an ordinal from 1 on has a year from 1 on and a month from
    1 to 12. *)
Lemma ord2ymd_valid n :
  1 <= n ->
  1 <= Calendar.year (Calendar.ord2ymd n)
  /\ 1 <= Calendar.month (Calendar.ord2ymd n) <= 12.
Proof.
  intros Hn. unfold Calendar.ord2ymd. cbv zeta.
  set (a := n - 1).
  set (n400 := a / 146097). set (r1 := a mod 146097).
  set (n100 := r1 / 36524). set (r2 := r1 mod 36524).
  set (n4 := r2 / 1461). set (r3 := r2 mod 1461).
  set (n1 := r3 / 365). set (r4 := r3 mod 365).
  assert (H400 : 0 <= n400) by (apply Z.div_pos; unfold a; lia).
  assert (Hr1 : 0 <= r1 < 146097) by (apply Z.mod_pos_bound; lia).
  assert (H100 : 0 <= n100) by (apply Z.div_pos; lia).
  assert (Hr2 : 0 <= r2 < 36524) by (apply Z.mod_pos_bound; lia).
  assert (H4 : 0 <= n4) by (apply Z.div_pos; lia).
  assert (Hr3 : 0 <= r3 < 1461) by (apply Z.mod_pos_bound; lia).
  assert (H1 : 0 <= n1) by (apply Z.div_pos; lia).
  assert (Hr4 : 0 <= r4 < 365) by (apply Z.mod_pos_bound; lia).
  clearbody n400 n100 n4 n1 r4. clear Hr1 Hr2 Hr3 r1 r2 r3 a Hn.
  destruct ((n1 =? 4) || (n100 =? 4)) eqn:Hlast.
  - cbn [Calendar.year Calendar.month].
    apply orb_true_iff in Hlast. destruct Hlast as [E|E];
      apply Z.eqb_eq in E; lia.
  - rewrite Z.shiftr_div_pow2 by lia. change (2 ^ 5) with 32.
    set (m := (r4 + 50) / 32).
    assert (Hm : 1 <= m <= 12).
    { unfold m. split.
      - apply Z.div_le_lower_bound; lia.
      - assert ((r4 + 50) / 32 < 13) by (apply Z.div_lt_upper_bound; lia).
        lia. }
    clearbody m.
    set (leapyear := (n1 =? 3) && (negb (n4 =? 24) || (n100 =? 3))).
    clearbody leapyear.
    match goal with
    | |- context [if ?b then _ else _] => destruct b eqn:Hbefore
    end; cbn [Calendar.year Calendar.month]; [|lia].
    split; [lia|]. split; [|lia].
    destruct (Z.eq_dec m 1) as [->|Hne]; [|lia].
    exfalso. apply Z.ltb_lt in Hbefore. cbn in Hbefore. lia.
Qed.

Lemma fold_left_cons_rev {A B} (f : A -> B) (l : list A) (acc : list B) :
  fold_left (fun out i => f i :: out) l acc = rev (map f l) ++ acc.
Proof.
  revert acc. induction l as [|i l IH]; intros acc; simpl.
  - reflexivity.
  - rewrite IH, <- app_assoc. reflexivity.
Qed.

Lemma month_labels_dates now months :
  History.month_labels now months = History.strftime_Ym <$> month_dates now months.
Proof.
  unfold History.month_labels, month_dates.
  rewrite (fold_left_cons_rev
             (fun i => History.strftime_Ym
                         (Calendar.minus_days now (30 * Z.of_nat i)))),
    (fold_left_cons_rev
       (fun i => Calendar.minus_days now (30 * Z.of_nat i))).
  rewrite !app_nil_r, <- map_rev, <- (map_map _ History.strftime_Ym).
  rewrite map_rev. reflexivity.
Qed.

Lemma month_dates_length now months :
  length (month_dates now months) = Z.to_nat months.
Proof.
  unfold month_dates.
  rewrite (fold_left_cons_rev
             (fun i => Calendar.minus_days now (30 * Z.of_nat i))).
  rewrite app_nil_r, length_rev, length_map, length_seq. reflexivity.
Qed.

(** As long as the oldest label is not before year 1, every date the labels
    are made from has a year from 1 on and a month from 1 to 12. *)
Lemma month_dates_valid now months :
  30 * (months - 1) < Calendar.ymd2ord now ->
  Forall (fun d => 1 <= Calendar.year d /\ 1 <= Calendar.month d <= 12)
    (month_dates now months).
Proof.
  intros Hfar. unfold month_dates.
  rewrite (fold_left_cons_rev
             (fun i => Calendar.minus_days now (30 * Z.of_nat i))).
  rewrite app_nil_r. apply Forall_rev. apply Forall_map.
  apply Forall_forall. intros i Hi. apply elem_of_seq in Hi.
  unfold Calendar.minus_days. apply ord2ymd_valid. lia.
Qed.

(** The loop over the labels, when every label is made from a date and the
    server answers. *)
Lemma monthly_data_exact bfm_no dates t c :
  Forall (fun d => 1 <= Calendar.year d /\ 1 <= Calendar.month d <= 12) dates ->
  in_reach_for (4 * length dates) c ->
  History.monthly_data bfm_no (History.strftime_Ym <$> dates) t c
  = (Ok {| History.monthly_pm_counts :=
             History.monthly_pm_counts t
               ++ (bucket_pm_count bfm_no (working c) <$> dates);
           History.monthly_cm_counts :=
             History.monthly_cm_counts t
               ++ (bucket_cm_count bfm_no (working c) <$> dates);
           History.monthly_labor_hours :=
             History.monthly_labor_hours t
               ++ (bucket_labor_hours bfm_no (working c) <$> dates);
           History.monthly_parts_cost := History.monthly_parts_cost t;
           History.months := History.months t |},
     {| committed := committed c; working := working c;
        outage := outage_after (4 * length dates) (outage c);
        log := log c ++ concat (bucket_statements bfm_no <$> dates) |}).
Proof.
  intros Hvalid. revert t c.
  induction Hvalid as [|d dates [Hy Hm] _ IH]; intros t c Hreach.
  - cbn [fmap list_fmap History.monthly_data length concat].
    unfold ret. rewrite !app_nil_r. destruct t, c as [cm wk o lg].
    cbn [History.monthly_pm_counts History.monthly_cm_counts
         History.monthly_labor_hours History.monthly_parts_cost History.months
         committed working outage log Nat.mul].
    unfold outage_after.
    destruct o; cbn [fmap option_fmap option_map]; rewrite ?Nat.sub_0_r;
      reflexivity.
  - cbn [fmap list_fmap History.monthly_data].
    rewrite year_mon_strftime by lia.
    unfold History.count_pm, History.count_cm, History.sum_pm_hours,
      History.sum_cm_hours.
    destruct c as [cm wk o lg]. unfold in_reach_for in Hreach.
    cbn [outage length] in Hreach.
    assert (Hstep : forall o',
              o' = outage_after 4 o ->
              in_reach_for (4 * length dates)
                {| committed := cm; working := wk; outage := o';
                   log := lg ++ bucket_statements bfm_no d |}).
    { intros o' ->. unfold in_reach_for, outage_after. cbn [outage].
      destruct o; cbn [fmap option_fmap option_map]; lia. }
    destruct o as [k|].
    + do 4 (destruct k as [|k]; [lia|]).
      do 4 (rewrite bind_query;
            cbn [outage working committed log outage_after fmap option_fmap
                 option_map Nat.sub]).
      rewrite <- !app_assoc. cbn [app].
      change (list_fmap _ _ History.strftime_Ym dates)
        with (History.strftime_Ym <$> dates).
      rewrite IH.
      * cbn [History.add_bucket History.monthly_pm_counts
               History.monthly_cm_counts History.monthly_labor_hours
               History.monthly_parts_cost History.months
               committed working outage log length concat].
        rewrite <- !app_assoc. cbn [app].
        unfold outage_after. cbn [fmap option_fmap option_map].
        replace (k - 0 - 4 * length dates)%nat
          with (S (S (S (S k))) - 4 * S (length dates))%nat by lia.
        reflexivity.
      * apply (Hstep (Some (k - 0)%nat)). unfold outage_after.
        cbn [fmap option_fmap option_map]. f_equal; lia.
    + do 4 (rewrite bind_query;
            cbn [outage working committed log outage_after fmap option_fmap
                 option_map Nat.sub]).
      rewrite <- !app_assoc. cbn [app].
      change (list_fmap _ _ History.strftime_Ym dates)
        with (History.strftime_Ym <$> dates).
      rewrite IH.
      * cbn [History.add_bucket History.monthly_pm_counts
               History.monthly_cm_counts History.monthly_labor_hours
               History.monthly_parts_cost History.months
               committed working outage log length concat].
        rewrite <- !app_assoc. cbn [app]. reflexivity.
      * apply (Hstep None). reflexivity.
Qed.

(** X19.  With the server in reach, and unless the labels would go back before
    year 1, the call returns: every label it makes is read back as a year
    and a month, so no [ValueError] is raised.  The labels are those of the
    dates 30 days apart; the counts and the hours are those of the buckets
    of these dates in the database as the call found it, one per label;
    [monthly_parts_cost] stays empty.  The server has received four
    statements per label and the commit, which also commits what the
    connection had pending. *)
Theorem trends_return_one_bucket_per_label bfm_no months now c :
  30 * (months - 1) < Calendar.ymd2ord now ->
  in_reach_for (4 * Z.to_nat months + 1) c ->
  let dates := month_dates now months in
  History.get_maintenance_trends bfm_no months now c
  = (Ok {| History.monthly_pm_counts := bucket_pm_count bfm_no (working c) <$> dates;
           History.monthly_cm_counts := bucket_cm_count bfm_no (working c) <$> dates;
           History.monthly_labor_hours :=
             bucket_labor_hours bfm_no (working c) <$> dates;
           History.monthly_parts_cost := [];
           History.months := History.strftime_Ym <$> dates |},
     {| committed := working c; working := working c;
        outage := outage_after (4 * Z.to_nat months + 1) (outage c);
        log := log c ++ concat (bucket_statements bfm_no <$> dates) ++ [Commit] |})
  /\ length dates = Z.to_nat months.
Proof.
  intros Hfar Hreach dates. split; [|apply month_dates_length].
  pose proof (month_dates_valid now months Hfar) as Hvalid. fold dates in Hvalid.
  pose proof (month_dates_length now months) as Hlen. fold dates in Hlen.
  unfold History.get_maintenance_trends, History.or_rollback.
  cbn [History.months]. rewrite month_labels_dates. fold dates.
  assert (Hreach1 : in_reach_for (4 * length dates) c).
  { unfold in_reach_for in *. destruct (outage c); lia. }
  rewrite (bind_runs _ _ _ _ _ (monthly_data_exact bfm_no dates _ c Hvalid Hreach1)).
  cbn [History.monthly_pm_counts History.monthly_cm_counts
       History.monthly_labor_hours History.monthly_parts_cost History.months app].
  match goal with
  | |- context [bind commit ?k ?c1] =>
      assert (Hreach2 : in_reach_for 1 c1)
  end.
  { unfold in_reach_for, outage_after in *. cbn [outage].
    destruct (outage c); cbn [fmap option_fmap option_map]; lia. }
  rewrite (bind_runs _ _ _ _ _ (commit_exact _ Hreach2)).
  unfold ret. cbn [committed working outage log].
  rewrite <- app_assoc. f_equal. f_equal.
  unfold outage_after. rewrite Hlen.
  destruct (outage c); cbn [fmap option_fmap option_map]; f_equal; lia.
Qed.

(** Three labels on 31 March 2025. *)
Lemma trends_return_one_bucket_per_label_witness :
  let c := connect Sample.february_and_march in
  let now := Sample.on 2025 3 31 in
  30 * (3 - 1) < Calendar.ymd2ord now
  /\ in_reach_for (4 * Z.to_nat 3 + 1) c
  /\ exists trends c',
       History.get_maintenance_trends "PUMP-7" 3 now c = (Ok trends, c')
       /\ History.monthly_parts_cost trends = []
       /\ length (History.monthly_pm_counts trends) = 3%nat
       /\ length (log c') = 13%nat.
Proof.
  intros c now.
  assert (Hfar : 30 * (3 - 1) < Calendar.ymd2ord now) by (vm_compute; reflexivity).
  assert (Hreach : in_reach_for (4 * Z.to_nat 3 + 1) c) by exact I.
  split; [exact Hfar|]. split; [exact Hreach|].
  destruct (trends_return_one_bucket_per_label "PUMP-7" 3 now c Hfar Hreach)
    as [Hrun _].
  eexists. eexists. split; [exact Hrun|].
  split; [reflexivity|]. split; vm_compute; reflexivity.
Defined.

Lemma in_window_month year mon x :
  1 <= mon <= 12 -> plausible x ->
  History.in_window (History.month_start_of year mon)
    (Some (History.month_end_of year mon)) x
  = (Calendar.year x =? year) && (Calendar.month x =? mon).
Proof.
  intros Hmon [Hxm Hxd].
  unfold History.in_window, Calendar.date_leb, Calendar.date_ltb,
    History.month_start_of, History.month_end_of.
  destruct (Z.eqb_spec mon 12) as [->|Hne];
    cbn [Calendar.year Calendar.month Calendar.day];
    repeat match goal with
           | |- context [?a <? ?b] => destruct (Z.ltb_spec a b)
           | |- context [?a =? ?b] => destruct (Z.eqb_spec a b)
           end;
    cbn [negb andb orb]; try reflexivity; lia.
Qed.

(** X20.  The bucket of a label holds the rows of its calendar month, the whole
    month and nothing else, as long as the dates in the tables are dates of
    the calendar. *)
Theorem bucket_is_calendar_month bfm_no d db :
  1 <= Calendar.month d <= 12 ->
  Forall plausible (completion_date <$> pm_completions db) ->
  Forall plausible (reported_date <$> corrective_maintenance db) ->
  History.pm_rows bfm_no (bucket_start d) (Some (bucket_end d)) db
  = pms_of_month bfm_no (Calendar.year d) (Calendar.month d) db
  /\ History.cm_rows bfm_no (bucket_start d) (Some (bucket_end d)) db
     = cms_of_month bfm_no (Calendar.year d) (Calendar.month d) db.
Proof.
  intros Hmon Hpm Hcm.
  rewrite Forall_fmap, Forall_forall in Hpm.
  rewrite Forall_fmap, Forall_forall in Hcm.
  unfold History.pm_rows, History.cm_rows, pms_of_month, cms_of_month,
    bucket_start, bucket_end.
  split; apply filter_ext_in; intros r Hr; f_equal;
    apply in_window_month; try exact Hmon.
  - apply (Hpm r). apply list_elem_of_In. exact Hr.
  - apply (Hcm r). apply list_elem_of_In. exact Hr.
Qed.

(** February 2025 in the sample: the one PM of 10 February. *)
Lemma bucket_is_calendar_month_witness :
  let db := Sample.february_and_march in
  let d := Sample.on 2025 2 14 in
  1 <= Calendar.month d <= 12
  /\ Forall plausible (completion_date <$> pm_completions db)
  /\ Forall plausible (reported_date <$> corrective_maintenance db)
  /\ History.pm_rows "PUMP-7" (bucket_start d) (Some (bucket_end d)) db
     = [Sample.pm_on "PUMP-7" (Sample.on 2025 2 10)].
Proof.
  intros db d.
  assert (Hmon : 1 <= Calendar.month d <= 12) by (vm_compute; intuition congruence).
  assert (Hpm : Forall plausible (completion_date <$> pm_completions db)).
  { repeat (apply List.Forall_cons; [vm_compute; intuition congruence|]).
    apply List.Forall_nil. }
  assert (Hcm : Forall plausible (reported_date <$> corrective_maintenance db))
    by apply List.Forall_nil.
  split; [exact Hmon|]. split; [exact Hpm|]. split; [exact Hcm|].
  rewrite (proj1 (bucket_is_calendar_month "PUMP-7" d db Hmon Hpm Hcm)).
  vm_compute. reflexivity.
Defined.

(** ** Closing the dialog *)








(** ** Opening a dialog after a save *)




